(** * sunxi-cir: the Allwinner A1X infrared receiver driver

    A shallow embedding of [drivers/media/rc/sunxi-cir.c].  The driver talks
    to two things it does not own: the receiver's register block and the
    kernel (clocks, pins, interrupt lines, the rc-core raw event queue).  Both
    are modelled as one environment that answers calls; every function of the
    driver is a computation that threads the environment and the chip
    structure and writes down, in order, each call it makes together with the
    value the call returned. *)

From Stdlib Require Import ZArith List Bool Lia.
Import ListNotations.
Local Open Scope Z_scope.

(** ** Fixed-width integers *)

Definition u8 (v : Z) : Z := v mod 2 ^ 8.
Definition u32 (v : Z) : Z := v mod 2 ^ 32.

(** ** Constants of the driver (the [#define]s at the top of the file) *)

Definition IR_CLOCK_RATE : Z := 8000000.
Definition IR_SAMPLE_CLK_SEL : Z := Z.shiftl 0x0 0.
Definition IR_RXFILT_VAL : Z := 1.
Definition IR_RXIDLE_VAL : Z := 29.
Definition IR_DRIVER_TIMEOUT : Z := 30.
Definition IR_FIFO_SIZE : Z := 16.
Definition IR_INVERT_INPUT : Z := 1.
Definition VALUE_MASK : Z := 0x80.
Definition PERIOD_MASK : Z := 0x7f.

Definition IR_RANGE_SIZE : Z := 200.

Definition CIR_SAMPLE_HZ : Z := IR_CLOCK_RATE / Z.shiftl 64 IR_SAMPLE_CLK_SEL.
Definition CIR_SAMPLE_PERIOD : Z := 1000000000 / CIR_SAMPLE_HZ.

Definition IR_REG (x : Z) : Z := x.
Definition IR_CTRL_REG : Z := IR_REG 0x00.
Definition IR_RXCFG_REG : Z := IR_REG 0x10.
Definition IR_RXDAT_REG : Z := IR_REG 0x20.
Definition IR_RXINTE_REG : Z := IR_REG 0x2C.
Definition IR_RXINTS_REG : Z := IR_REG 0x30.
Definition IR_SPLCFG_REG : Z := IR_REG 0x34.

Definition IR_RXINTS_RXOF : Z := Z.shiftl 0x1 0.
Definition IR_RXINTS_RXPE : Z := Z.shiftl 0x1 1.
Definition IR_RXINTS_RXDA : Z := Z.shiftl 0x1 4.

Definition IRDA_MODE_CIR : Z := Z.shiftl 0x3 4.
Definition IR_RX_EN : Z := Z.shiftl 0x1 1.
Definition IR_GLOB_EN : Z := Z.shiftl 0x1 0.

Definition IR_INVERT_EN : Z := Z.shiftl IR_INVERT_INPUT 2.

Definition RPEI_EN : Z := Z.shiftl 0x1 0.
Definition RISI_EN : Z := Z.shiftl 0x1 1.
Definition RAI_EN : Z := Z.shiftl 0x1 4.

Definition SUCCESS : Z := 0.

(** ** Data *)

(** Modelled from the spec: [struct ir_raw_event] is declared in
    [media/rc-core.h], which is not part of this file.  The driver sets the
    two members the spec calls a Pulse Event, [{is_mark, duration_ns : u32}];
    [init_ir_raw_event] zeroes the others and the driver never touches them. *)
Record ir_raw_event := mk_raw_event { pulse : bool; duration : Z }.

(** Modelled from the spec: [irqreturn_t] is the enumeration of
    [linux/irqreturn.h]; the handler can only name one of its members. *)
Inductive irqreturn_t := IRQ_NONE | IRQ_HANDLED | IRQ_WAKE_THREAD.

(** [struct sunxi_ir_chip].  Pointers and handles are plain integers, the null
    pointer being 0; [dev] is never read or written and [irq_lock] has no
    content of its own (taking and dropping it are calls, below). *)
Record sunxi_ir_chip := mk_chip {
  rcdev : Z;
  gaddr : Z;
  gpio_hdle : Z;
  apb_ir_clk : Z;
  ir_clk : Z
}.

(** What [kzalloc] hands back: every member zero. *)
Definition zeroed_chip : sunxi_ir_chip := mk_chip 0 0 0 0 0.

Inductive clk_id := apb_ir0 | ir0.

(** Every call that leaves the driver.  The strings passed to
    [gpio_request_ex] and [request_irq] are constants and are left out, and so
    is logging ([pr_err], [pr_info]). *)
Inductive call :=
| kzalloc
| kfree (p : Z)
| rc_allocate_device
| rc_free_device (rc : Z)
| rc_register_device (rc : Z)
| rc_unregister_device (rc : Z)
| request_irq (irq devid : Z)
| free_irq (irq devid : Z)
| ioremap (base size : Z)
| iounmap (addr : Z)
| gpio_request_ex
| gpio_release (h flag : Z)
| clk_get (id : clk_id)
| clk_set_rate (clk rate : Z)
| clk_get_rate (clk : Z)
| clk_enable (clk : Z)
| clk_disable (clk : Z)
| readl (addr : Z)
| writel (v addr : Z)
| spin_lock_irqsave
| spin_unlock_irqrestore
| ir_raw_event_store_with_filter (rc : Z) (ev : ir_raw_event)
| ir_raw_event_handle (rc : Z)
| ir_raw_event_set_idle (rc : Z) (idle : bool)
| ir_raw_event_reset (rc : Z).

(** A trace entry: the call and the value the driver got back from it (0 when
    the driver does not look at one). *)
Definition event : Type := call * Z.
Definition trace : Type := list event.

(** ** The sample conversion of the interrupt handler (lines 213-215)

    [gval] is the byte kept of the word read from the data register; the
    product is computed in [unsigned long] and stored in the 32-bit
    [duration]. *)
Definition sample_pulse (gval : Z) : bool :=
  negb (Z.land gval VALUE_MASK =? 0).
Definition sample_ticks (gval : Z) : Z := Z.land gval PERIOD_MASK.
Definition sample_duration (gval : Z) : Z :=
  u32 (sample_ticks gval * CIR_SAMPLE_PERIOD).
Definition sample_event (gval : Z) : ir_raw_event :=
  mk_raw_event (sample_pulse gval) (sample_duration gval).

(** The sample count of a status word (line 208). *)
Definition status_scnt (intsta : Z) : Z := u8 (Z.land (Z.shiftr intsta 8) 0xff).

(** The value [ir_setup] writes to the interrupt-enable register
    (lines 152-153). *)
Definition rxinte_setup_value : Z :=
  Z.lor (Z.lor (Z.lor RPEI_EN RISI_EN) RAI_EN)
        (Z.shiftl (Z.shiftr IR_FIFO_SIZE 1 - 1) 8).

(** The value [ir_setup] writes to the sample-config register
    (lines 140-142). *)
Definition splcfg_setup_value : Z :=
  Z.lor (Z.lor IR_SAMPLE_CLK_SEL (Z.shiftl (Z.land IR_RXFILT_VAL 0x3f) 2))
        (Z.shiftl (Z.land IR_RXIDLE_VAL 0xff) 8).

(** ** Reading a trace *)

(** The words read from address [a], in order. *)
Definition reads_at (a : Z) (tr : trace) : list Z :=
  flat_map (fun ev : event =>
              match ev with
              | (readl b, v) => if b =? a then [v] else []
              | _ => []
              end) tr.

(** The words written to address [a], in order. *)
Definition writes_at (a : Z) (tr : trace) : list Z :=
  flat_map (fun ev : event =>
              match ev with
              | (writel v b, _) => if b =? a then [v] else []
              | _ => []
              end) tr.

(** The raw events handed to rc-core, in order. *)
Definition pushes (tr : trace) : list ir_raw_event :=
  flat_map (fun ev : event =>
              match ev with
              | (ir_raw_event_store_with_filter _ e, _) => [e]
              | _ => []
              end) tr.

(** The three calls the spec names as the Event Sink interface: [push]
    ([ir_raw_event_store_with_filter]), [notify_idle]
    ([ir_raw_event_set_idle]) and [notify_reset] ([ir_raw_event_reset]). *)
Inductive sink_call :=
| push (is_mark : bool) (duration_ns : Z)
| notify_idle
| notify_reset.

Definition sink_calls (tr : trace) : list sink_call :=
  flat_map (fun ev : event =>
              match ev with
              | (ir_raw_event_store_with_filter _ e, _) =>
                  [push (pulse e) (duration e)]
              | (ir_raw_event_set_idle _ _, _) => [notify_idle]
              | (ir_raw_event_reset _, _) => [notify_reset]
              | _ => []
              end) tr.

Definition push_of (e : ir_raw_event) : sink_call :=
  push (pulse e) (duration e).

(** The fields of an interrupt status word (section 6 of the spec: bit 0
    overflow, bit 1 packet end, bits 8-15 the count). *)
Definition overflow (intsta : Z) : bool := Z.testbit intsta 0.
Definition packet_end (intsta : Z) : bool := Z.testbit intsta 1.
Definition available_count (intsta : Z) : Z := (intsta / 2 ^ 8) mod 2 ^ 8.

(** ** The shape of a handler trace *)

(** What one pass of the loop body leaves in the trace for a word [w] read
    from the data register. *)
Definition sample_calls (c : sunxi_ir_chip) (w : Z) : trace :=
  [ (readl (gaddr c + IR_RXDAT_REG), w);
    (ir_raw_event_store_with_filter (rcdev c) (sample_event (u8 w)), 0);
    (ir_raw_event_handle (rcdev c), 0) ].

Definition idle_calls (c : sunxi_ir_chip) (intsta : Z) : trace :=
  if negb (Z.land intsta IR_RXINTS_RXPE =? 0)
  then [(ir_raw_event_set_idle (rcdev c) true, 0)] else [].

Definition reset_calls (c : sunxi_ir_chip) (intsta : Z) : trace :=
  if negb (Z.land intsta IR_RXINTS_RXOF =? 0)
  then [(ir_raw_event_reset (rcdev c), 0)] else [].

Definition irq_trace (c : sunxi_ir_chip) (intsta : Z) (ws : list Z) : trace :=
  [ (spin_lock_irqsave, 0);
    (readl (gaddr c + IR_RXINTS_REG), intsta);
    (writel (Z.land intsta 0xff) (gaddr c + IR_RXINTS_REG), 0) ]
  ++ flat_map (sample_calls c) ws
  ++ idle_calls c intsta ++ reset_calls c intsta
  ++ [(spin_unlock_irqrestore, 0)].

(** The reading of C3 as the spec words it: the one word read from the
    status register is the word written back to it. *)
Definition written_back_unchanged (a : Z) (tr : trace) : Prop :=
  exists v, reads_at a tr = [v] /\ writes_at a tr = [v].

(** ** Resources

    What the driver takes from the kernel and has to give back.  [clk_get]
    only looks a clock up by name, and the driver has no [clk_put] on any
    path: what setup turns on and teardown turns off is the clock's enable,
    so that is the resource.  Whether a call succeeded is decided by the test
    the driver itself applies to the value returned. *)

Inductive resource :=
| chip_memory (p : Z)
| rc_device (rc : Z)
| rc_registration (rc : Z)
| irq_handler (irq devid : Z)
| register_mapping (addr : Z)
| ir_pin (h : Z)
| clock_enable (clk : Z).

Definition resource_eqb (a b : resource) : bool :=
  match a, b with
  | chip_memory p, chip_memory q => p =? q
  | rc_device p, rc_device q => p =? q
  | rc_registration p, rc_registration q => p =? q
  | irq_handler i p, irq_handler j q => (i =? j) && (p =? q)
  | register_mapping p, register_mapping q => p =? q
  | ir_pin p, ir_pin q => p =? q
  | clock_enable p, clock_enable q => p =? q
  | _, _ => false
  end.

Definition acquires (ev : event) : option resource :=
  match ev with
  | (kzalloc, p) => if p =? 0 then None else Some (chip_memory p)
  | (rc_allocate_device, rc) => if rc =? 0 then None else Some (rc_device rc)
  | (rc_register_device rc, r) =>
      if r <? 0 then None else Some (rc_registration rc)
  | (request_irq irq devid, r) =>
      if r <? 0 then None else Some (irq_handler irq devid)
  | (ioremap _ _, a) => if a =? 0 then None else Some (register_mapping a)
  | (gpio_request_ex, h) => if h =? 0 then None else Some (ir_pin h)
  | (clk_enable clk, r) => if r =? 0 then Some (clock_enable clk) else None
  | _ => None
  end.

Definition releases (ev : event) : option resource :=
  match ev with
  | (kfree p, _) => Some (chip_memory p)
  | (rc_free_device rc, _) => Some (rc_device rc)
  | (rc_unregister_device rc, _) => Some (rc_registration rc)
  | (free_irq irq devid, _) => Some (irq_handler irq devid)
  | (iounmap a, _) => Some (register_mapping a)
  | (gpio_release h _, _) => Some (ir_pin h)
  | (clk_disable clk, _) => Some (clock_enable clk)
  | _ => None
  end.

(** The books kept along a trace: what is held, most recent first; whether
    every release so far gave back the most recently acquired resource still
    held; and the releases of something that was not held at all. *)
Record ledger := mk_ledger {
  held : list resource;
  in_order : bool;
  not_held : list resource
}.

Fixpoint remove_first (r : resource) (l : list resource) : list resource :=
  match l with
  | [] => []
  | x :: rest => if resource_eqb x r then rest else x :: remove_first r rest
  end.

Definition give_back (r : resource) (l : ledger) : ledger :=
  match held l with
  | top :: rest =>
      if resource_eqb top r then mk_ledger rest (in_order l) (not_held l)
      else if existsb (resource_eqb r) rest
           then mk_ledger (top :: remove_first r rest) false (not_held l)
           else mk_ledger (held l) (in_order l) (not_held l ++ [r])
  | [] => mk_ledger [] (in_order l) (not_held l ++ [r])
  end.

Definition ledger_step (l : ledger) (ev : event) : ledger :=
  match acquires ev with
  | Some r => mk_ledger (r :: held l) (in_order l) (not_held l)
  | None =>
      match releases ev with
      | Some r => give_back r l
      | None => l
      end
  end.

Definition ledger_of (tr : trace) : ledger :=
  fold_left ledger_step tr (mk_ledger [] true []).



(** The calls that try to acquire something or to set a clock up, and the
    driver's own test for each having failed. *)
Definition is_acquisition (c : call) : bool :=
  match c with
  | kzalloc | rc_allocate_device | rc_register_device _ | request_irq _ _
  | ioremap _ _ | gpio_request_ex | clk_get _ | clk_set_rate _ _
  | clk_enable _ => true
  | _ => false
  end.

Definition step_failed (ev : event) : bool :=
  match ev with
  | (kzalloc, p) => p =? 0
  | (rc_allocate_device, rc) => rc =? 0
  | (rc_register_device _, r) => r <? 0
  | (request_irq _ _, r) => r <? 0
  | (ioremap _ _, a) => a =? 0
  | (gpio_request_ex, h) => h =? 0
  | (clk_get _, c) => c =? 0
  | (clk_set_rate _ _, r) => negb (r =? 0)
  | (clk_enable _, r) => negb (r =? 0)
  | _ => false
  end.

(** The steps of [ir_setup]: pin request, the two clock lookups, the rate
    setting, the two clock enables. *)
Definition setup_step_failed (ev : event) : bool :=
  match ev with
  | (gpio_request_ex, _) | (clk_get _, _) | (clk_set_rate _ _, _)
  | (clk_enable _, _) => step_failed ev
  | _ => false
  end.

(** After the first failed step no further acquisition is attempted. *)
Fixpoint stops_at_failure (tr : trace) : bool :=
  match tr with
  | [] => true
  | ev :: rest =>
      if step_failed ev
      then forallb (fun e : event => negb (is_acquisition (fst e))) rest
      else stops_at_failure rest
  end.

(** ** Order of calls in a trace *)

(** The first call that satisfies [p] or [q] satisfies [p], and a call
    satisfying [q] comes later. *)
Fixpoint happens_before (p q : call -> bool) (tr : trace) : bool :=
  match tr with
  | [] => false
  | ev :: rest =>
      if p (fst ev) then existsb (fun e : event => q (fst e)) rest
      else if q (fst ev) then false
      else happens_before p q rest
  end.

(** No call satisfying [q] comes after a call satisfying [p]. *)
Fixpoint none_after (p q : call -> bool) (tr : trace) : bool :=
  match tr with
  | [] => true
  | ev :: rest =>
      if p (fst ev)
      then forallb (fun e : event => negb (q (fst e))) rest
      else none_after p q rest
  end.

Definition is_free_irq (c : call) : bool :=
  match c with free_irq _ _ => true | _ => false end.
Definition is_iounmap (c : call) : bool :=
  match c with iounmap _ => true | _ => false end.
Definition is_register_access (c : call) : bool :=
  match c with readl _ | writel _ _ => true | _ => false end.
Definition is_interrupt_disable (g : Z) (c : call) : bool :=
  match c with
  | writel v a => (v =? 0) && (a =? g + IR_RXINTE_REG)
  | _ => false
  end.

(** The reading of C5 as the spec words it: the handler is deregistered
    strictly before the register block is unmapped. *)
Definition deregistered_before_unmap (tr : trace) : Prop :=
  happens_before is_free_irq is_iounmap tr = true.

(** The reading of C8 as the spec words it: the field above bit 7 of the word
    written to the interrupt-enable register at [a] is half the FIFO depth. *)
Definition threshold_is_half_depth (a : Z) (tr : trace) : Prop :=
  exists v, writes_at a tr = [v] /\ Z.shiftr v 8 = IR_FIFO_SIZE / 2.

(** ** The environment and the driver's computations *)

(** Constants that come from the platform and errno headers. *)
Record platform := mk_platform {
  SW_INT_IRQNO_IR0 : Z;
  SW_PA_IR0_IO_BASE : Z;
  ENOMEM : Z;
  EINVAL : Z;
  EINTR : Z;
  EIO : Z
}.

(** The outside world: a state and the answer it gives to each call. *)
Record environment := mk_environment {
  env_state : Type;
  respond : env_state -> call -> Z * env_state
}.

Section Driver.

Variable P : platform.
Variable E : environment.

Definition IR_IRQNO : Z := SW_INT_IRQNO_IR0 P.
Definition IR_BASE : Z := SW_PA_IR0_IO_BASE P.

(** The state a computation threads: the world outside, the platform
    device's driver-data pointer and the one chip structure it points to. *)
Record state := mk_state {
  world : env_state E;
  drvdata : Z;
  chip : sunxi_ir_chip
}.

Definition M (A : Type) : Type := state -> A * state * trace.

Definition ret {A} (a : A) : M A := fun s => (a, s, []).

Definition bind {A B} (m : M A) (f : A -> M B) : M B :=
  fun s =>
    let '(a, s1, t1) := m s in
    let '(b, s2, t2) := f a s1 in
    (b, s2, t1 ++ t2).

Notation "x <- m ;; k" := (bind m (fun x => k))
  (at level 61, m at next level, right associativity).
Notation "m ;;; k" := (bind m (fun _ => k))
  (at level 61, right associativity).

(** [readl] yields a 32-bit word whatever the bus drives. *)
Definition returned (c : call) (v : Z) : Z :=
  match c with
  | readl _ => u32 v
  | _ => v
  end.

Definition extern (c : call) : M Z :=
  fun s =>
    let '(v, w) := respond E (world s) c in
    (returned c v, mk_state w (drvdata s) (chip s), [(c, returned c v)]).

Definition get_chip : M sunxi_ir_chip := fun s => (chip s, s, []).
Definition set_chip (c : sunxi_ir_chip) : M unit :=
  fun s => (tt, mk_state (world s) (drvdata s) c, []).
Definition platform_get_drvdata : M Z := fun s => (drvdata s, s, []).
Definition platform_set_drvdata (p : Z) : M unit :=
  fun s => (tt, mk_state (world s) p (chip s), []).

Definition when (b : bool) (m : M unit) : M unit :=
  if b then m else ret tt.

(** A call made for its effect only: what it returns, if anything, is
    dropped, and the trace records 0. *)
Definition void (c : call) : M unit :=
  fun s =>
    let '(_, w) := respond E (world s) c in
    (tt, mk_state w (drvdata s) (chip s), [(c, 0)]).

(** *** [sunxi_ir_irq] *)

(** The body of the [for] loop, run [n] more times. *)
Fixpoint drain_fifo (n : nat) (ir_chip : sunxi_ir_chip) : M unit :=
  match n with
  | O => ret tt
  | S n' =>
      w <- extern (readl (gaddr ir_chip + IR_RXDAT_REG)) ;;
      let gval := u8 w in
      let rawir := mk_raw_event (negb (Z.land gval VALUE_MASK =? 0))
                     (u32 (Z.land gval PERIOD_MASK * CIR_SAMPLE_PERIOD)) in
      void (ir_raw_event_store_with_filter (rcdev ir_chip) rawir) ;;;
      void (ir_raw_event_handle (rcdev ir_chip)) ;;;
      drain_fifo n' ir_chip
  end.

(** [devid] is the chip's address; the one chip of the state is what it
    points to.  [irq] is not used. *)
Definition sunxi_ir_irq (irq devid : Z) : M irqreturn_t :=
  ir_chip <- get_chip ;;
  void spin_lock_irqsave ;;;
  intsta <- extern (readl (gaddr ir_chip + IR_RXINTS_REG)) ;;
  void (writel (Z.land intsta 0xff) (gaddr ir_chip + IR_RXINTS_REG)) ;;;
  let scnt := u8 (Z.land (Z.shiftr intsta 8) 0xff) in
  drain_fifo (Z.to_nat scnt) ir_chip ;;;
  when (negb (Z.land intsta IR_RXINTS_RXPE =? 0))
       (void (ir_raw_event_set_idle (rcdev ir_chip) true)) ;;;
  when (negb (Z.land intsta IR_RXINTS_RXOF =? 0))
       (void (ir_raw_event_reset (rcdev ir_chip))) ;;;
  void spin_unlock_irqrestore ;;;
  ret IRQ_HANDLED.

(** *** [ir_setup] *)

Definition ir_setup : M Z :=
  h <- extern gpio_request_ex ;;
  c <- get_chip ;;
  set_chip (mk_chip (rcdev c) (gaddr c) h (apb_ir_clk c) (ir_clk c)) ;;;
  if h =? 0 then ret (- EINVAL P) else
  a <- extern (clk_get apb_ir0) ;;
  c <- get_chip ;;
  set_chip (mk_chip (rcdev c) (gaddr c) (gpio_hdle c) a (ir_clk c)) ;;;
  if a =? 0 then ret (- EINVAL P) else
  i <- extern (clk_get ir0) ;;
  c <- get_chip ;;
  set_chip (mk_chip (rcdev c) (gaddr c) (gpio_hdle c) (apb_ir_clk c) i) ;;;
  if i =? 0 then ret (- EINVAL P) else
  ir_chip <- get_chip ;;
  r <- extern (clk_set_rate (ir_clk ir_chip) IR_CLOCK_RATE) ;;
  if negb (r =? 0) then ret (- EINTR P) else
  void (clk_get_rate (ir_clk ir_chip)) ;;;
  r <- extern (clk_enable (apb_ir_clk ir_chip)) ;;
  if negb (r =? 0) then ret (- EINTR P) else
  r <- extern (clk_enable (ir_clk ir_chip)) ;;
  if negb (r =? 0) then ret (- EINTR P) else
  void (writel IRDA_MODE_CIR (gaddr ir_chip + IR_CTRL_REG)) ;;;
  void (writel splcfg_setup_value (gaddr ir_chip + IR_SPLCFG_REG)) ;;;
  void (writel IR_INVERT_EN (gaddr ir_chip + IR_RXCFG_REG)) ;;;
  void (writel 0xff (gaddr ir_chip + IR_RXINTS_REG)) ;;;
  void (writel rxinte_setup_value (gaddr ir_chip + IR_RXINTE_REG)) ;;;
  tmp <- extern (readl (gaddr ir_chip + IR_CTRL_REG)) ;;
  void (writel (Z.lor (Z.lor tmp IR_GLOB_EN) IR_RX_EN)
               (gaddr ir_chip + IR_CTRL_REG)) ;;;
  ret SUCCESS.

(** *** [ir_stop] *)

Definition ir_stop : M unit :=
  ir_chip <- get_chip ;;
  void (writel 0 (gaddr ir_chip + IR_RXINTE_REG)) ;;;
  void (writel 0xff (gaddr ir_chip + IR_RXINTS_REG)) ;;;
  void (writel 0 (gaddr ir_chip + IR_CTRL_REG)) ;;;
  when (negb (ir_clk ir_chip =? 0)) (void (clk_disable (ir_clk ir_chip))) ;;;
  when (negb (apb_ir_clk ir_chip =? 0))
       (void (clk_disable (apb_ir_clk ir_chip))) ;;;
  void (gpio_release (gpio_hdle ir_chip) 1).

(** *** [sunxi_ir_probe]

    The labels at the end of the function, each falling through to the next.
    [p] is the chip's address.  The assignments to the members of the rc
    device (lines 251-259) write to memory the driver never reads back and are
    not calls; they are left out. *)

Definition err_allocate (p : Z) : M unit :=
  void (kfree p).

Definition err_register (p : Z) : M unit :=
  ir_chip <- get_chip ;;
  void (rc_free_device (rcdev ir_chip)) ;;;
  err_allocate p.

Definition err_irq (p : Z) : M unit :=
  ir_chip <- get_chip ;;
  void (rc_unregister_device (rcdev ir_chip)) ;;;
  err_register p.

Definition err_map (p : Z) : M unit :=
  void (free_irq IR_IRQNO p) ;;;
  err_irq p.

Definition err_setup (p : Z) : M unit :=
  ir_stop ;;;
  ir_chip <- get_chip ;;
  void (iounmap (gaddr ir_chip)) ;;;
  err_map p.

Definition sunxi_ir_probe : M Z :=
  p <- extern kzalloc ;;
  if p =? 0 then ret (- ENOMEM P) else
  set_chip zeroed_chip ;;;
  rc <- extern rc_allocate_device ;;
  c <- get_chip ;;
  set_chip (mk_chip rc (gaddr c) (gpio_hdle c) (apb_ir_clk c) (ir_clk c)) ;;;
  if rc =? 0 then err_allocate p ;;; ret (- ENOMEM P) else
  err <- extern (rc_register_device rc) ;;
  if err <? 0 then err_register p ;;; ret err else
  err <- extern (request_irq IR_IRQNO p) ;;
  if err <? 0 then err_irq p ;;; ret err else
  ga <- extern (ioremap IR_BASE IR_RANGE_SIZE) ;;
  c <- get_chip ;;
  set_chip (mk_chip (rcdev c) ga (gpio_hdle c) (apb_ir_clk c) (ir_clk c)) ;;;
  if ga =? 0 then err_map p ;;; ret (- EIO P) else
  platform_set_drvdata p ;;;
  void (ir_raw_event_reset rc) ;;;
  err <- ir_setup ;;
  if negb (err =? 0) then err_setup p ;;; ret err else
  ret SUCCESS.

(** *** [sunxi_ir_remove] *)

Definition sunxi_ir_remove : M Z :=
  p <- platform_get_drvdata ;;
  ir_stop ;;;
  ir_chip <- get_chip ;;
  void (iounmap (gaddr ir_chip)) ;;;
  void (free_irq IR_IRQNO p) ;;;
  void (rc_unregister_device (rcdev ir_chip)) ;;;
  void (rc_free_device (rcdev ir_chip)) ;;;
  void (kfree p) ;;;
  ret SUCCESS.

(** The platform bus calls [remove] only on a device whose [probe]
    returned 0. *)
Definition attach_then_detach : M Z :=
  err <- sunxi_ir_probe ;;
  if err =? SUCCESS then sunxi_ir_remove else ret err.


(** Running a computation: result, final state, trace. *)
Definition result {A} (r : A * state * trace) : A := fst (fst r).
Definition final {A} (r : A * state * trace) : state := snd (fst r).
Definition calls {A} (r : A * state * trace) : trace := snd r.

End Driver.

Arguments result {E A} r.
Arguments final {E A} r.
Arguments calls {E A} r.
Arguments world {E} s.
Arguments drvdata {E} s.
Arguments chip {E} s.
Arguments mk_state {E} _ _ _.

(** ** A scripted environment

    A receiver whose data register pops a given list of words and in which
    every other call is answered from a fixed table.  It is used to run the
    driver on concrete inputs. *)

Record scripted := mk_scripted {
  answer : call -> Z;
  fifo_addr : Z;
  fifo : list Z
}.

Definition scripted_respond (w : scripted) (c : call) : Z * scripted :=
  match c with
  | readl a =>
      if a =? fifo_addr w then
        match fifo w with
        | x :: rest => (x, mk_scripted (answer w) (fifo_addr w) rest)
        | [] => (0, w)
        end
      else (answer w c, w)
  | _ => (answer w c, w)
  end.

Definition scripted_env : environment :=
  mk_environment scripted scripted_respond.

(** A running receiver mapped at 0xf1c21800 whose status register reads
    [intsta] and whose FIFO holds [bytes]. *)
Definition running_chip : sunxi_ir_chip := mk_chip 0x100 0xf1c21800 7 0x200 0x300.

Definition receiver (intsta : Z) (bytes : list Z) : state scripted_env :=
  mk_state (E := scripted_env)
    (mk_scripted
       (fun c => match c with
                 | readl a => if a =? 0xf1c21800 + IR_RXINTS_REG then intsta else 0
                 | _ => 0
                 end)
       (0xf1c21800 + IR_RXDAT_REG) bytes)
    0x400 running_chip.

(** The errno constants are positive numbers. *)
Definition errno_positive (P : platform) : Prop :=
  0 < ENOMEM P /\ 0 < EINVAL P /\ 0 < EINTR P /\ 0 < EIO P.

(** The sun4i values: interrupt 5, registers at 0x01c21800, and the errno
    numbers of [errno-base.h]. *)
Definition sun4i : platform := mk_platform 5 0x01c21800 12 22 4 5.

(** A kernel in which every call succeeds. *)
Definition healthy (c : call) : Z :=
  match c with
  | kzalloc => 0x400
  | rc_allocate_device => 0x100
  | ioremap _ _ => 0xf1c21800
  | gpio_request_ex => 7
  | clk_get apb_ir0 => 0x200
  | clk_get ir0 => 0x300
  | _ => 0
  end.

(** The same kernel, except that the bus clock cannot be found: the second
    step of [ir_setup] fails. *)
Definition no_bus_clock (c : call) : Z :=
  match c with
  | clk_get apb_ir0 => 0
  | _ => healthy c
  end.

(** The same kernel, except that the module clock refuses the rate. *)
Definition rate_rejected (c : call) : Z :=
  match c with
  | clk_set_rate _ _ => -1
  | _ => healthy c
  end.

Definition cold (answers : call -> Z) : state scripted_env :=
  mk_state (E := scripted_env)
    (mk_scripted answers (0xf1c21800 + IR_RXDAT_REG) []) 0 zeroed_chip.

(** The chip as [sunxi_ir_probe] leaves it just before it calls [ir_setup]. *)
Definition mapped : state scripted_env :=
  mk_state (E := scripted_env)
    (mk_scripted healthy (0xf1c21800 + IR_RXDAT_REG) [])
    0x400 (mk_chip 0x100 0xf1c21800 0 0 0).


(** Nothing held, and everything given back in reverse order of
    acquisition. *)
Definition settled (l : ledger) : Prop :=
  held l = [] /\ in_order l = true.

(** ** More ways of reading a trace *)

Definition is_spin_lock (c : call) : bool :=
  match c with spin_lock_irqsave => true | _ => false end.
Definition is_spin_unlock (c : call) : bool :=
  match c with spin_unlock_irqrestore => true | _ => false end.
Definition is_store (c : call) : bool :=
  match c with ir_raw_event_store_with_filter _ _ => true | _ => false end.
Definition is_handle (c : call) : bool :=
  match c with ir_raw_event_handle _ => true | _ => false end.
Definition is_write (c : call) : bool :=
  match c with writel _ _ => true | _ => false end.
Definition is_read (c : call) : bool :=
  match c with readl _ => true | _ => false end.
Definition is_clk_disable (c : call) : bool :=
  match c with clk_disable _ => true | _ => false end.
Definition is_gpio_release (c : call) : bool :=
  match c with gpio_release _ _ => true | _ => false end.

Definition count_calls (p : call -> bool) (tr : trace) : nat :=
  length (filter (fun e : event => p (fst e)) tr).

(** The addresses of the registers read or written, in order. *)
Definition accesses (tr : trace) : list Z :=
  flat_map (fun ev : event =>
              match ev with
              | (readl a, _) => [a]
              | (writel _ a, _) => [a]
              | _ => []
              end) tr.

(** Every store is followed at once by a handle on the same rc device. *)
Fixpoint each_store_handled (tr : trace) : bool :=
  match tr with
  | [] => true
  | (ir_raw_event_store_with_filter rc _, _) :: rest =>
      match rest with
      | (ir_raw_event_handle rc', _) :: _ =>
          (rc =? rc') && each_store_handled rest
      | _ => false
      end
  | _ :: rest => each_store_handled rest
  end.

(** A 32-bit access at [a] lies inside the [IR_RANGE_SIZE] bytes mapped
    at [g]. *)
Definition in_window (g a : Z) : bool :=
  (g <=? a) && (a + 4 <=? g + IR_RANGE_SIZE).

(** Every register access happens while a mapping is in place and inside it.
    [m] is the address [ioremap] returned, if the block is mapped. *)
Fixpoint accesses_mapped (m : option Z) (tr : trace) : bool :=
  match tr with
  | [] => true
  | (ioremap _ _, a) :: rest =>
      accesses_mapped (if a =? 0 then m else Some a) rest
  | (iounmap _, _) :: rest => accesses_mapped None rest
  | (readl a, _) :: rest | (writel _ a, _) :: rest =>
      match m with
      | Some g => in_window g a && accesses_mapped m rest
      | None => false
      end
  | _ :: rest => accesses_mapped m rest
  end.

(** The error code that belongs to a failed step: what [ir_setup] and
    [sunxi_ir_probe] return for it. *)
Definition error_code (P : platform) (ev : event) : Z :=
  match ev with
  | (kzalloc, _) | (rc_allocate_device, _) => - ENOMEM P
  | (rc_register_device _, r) | (request_irq _ _, r) => r
  | (ioremap _ _, _) => - EIO P
  | (gpio_request_ex, _) | (clk_get _, _) => - EINVAL P
  | _ => - EINTR P
  end.

(** What a run of [ir_setup] that succeeds leaves in the trace: [h], [a] and
    [i] are the pin handle and the two clocks, [tmp] the control word read
    back. *)
Definition setup_trace (c : sunxi_ir_chip) (h a i tmp : Z) : trace :=
  [ (gpio_request_ex, h);
    (clk_get apb_ir0, a);
    (clk_get ir0, i);
    (clk_set_rate i IR_CLOCK_RATE, 0);
    (clk_get_rate i, 0);
    (clk_enable a, 0);
    (clk_enable i, 0);
    (writel IRDA_MODE_CIR (gaddr c + IR_CTRL_REG), 0);
    (writel splcfg_setup_value (gaddr c + IR_SPLCFG_REG), 0);
    (writel IR_INVERT_EN (gaddr c + IR_RXCFG_REG), 0);
    (writel 0xff (gaddr c + IR_RXINTS_REG), 0);
    (writel rxinte_setup_value (gaddr c + IR_RXINTE_REG), 0);
    (readl (gaddr c + IR_CTRL_REG), tmp);
    (writel (Z.lor (Z.lor tmp IR_GLOB_EN) IR_RX_EN) (gaddr c + IR_CTRL_REG), 0) ].

(** What [ir_stop] leaves in the trace for a chip [c]. *)
Definition stop_trace (c : sunxi_ir_chip) : trace :=
  [ (writel 0 (gaddr c + IR_RXINTE_REG), 0);
    (writel 0xff (gaddr c + IR_RXINTS_REG), 0);
    (writel 0 (gaddr c + IR_CTRL_REG), 0) ]
  ++ (if negb (ir_clk c =? 0) then [(clk_disable (ir_clk c), 0)] else [])
  ++ (if negb (apb_ir_clk c =? 0) then [(clk_disable (apb_ir_clk c), 0)]
      else [])
  ++ [(gpio_release (gpio_hdle c) 1, 0)].

(** ** Module load and unload

    [sunxi_ir_init] and [sunxi_ir_exit] talk to the platform bus only. *)

Inductive bus_call :=
| platform_device_register
| platform_driver_register
| platform_device_unregister
| platform_driver_unregister.

Record bus := mk_bus {
  bus_state : Type;
  bus_respond : bus_state -> bus_call -> Z * bus_state
}.

Definition bus_trace : Type := list (bus_call * Z).

Definition sunxi_ir_init (B : bus) (b : bus_state B)
  : Z * bus_state B * bus_trace :=
  let '(err, b1) := bus_respond B b platform_device_register in
  if negb (err =? 0) then (err, b1, [(platform_device_register, err)]) else
  let '(err2, b2) := bus_respond B b1 platform_driver_register in
  if negb (err2 =? 0) then
    let '(_, b3) := bus_respond B b2 platform_device_unregister in
    (err2, b3, [ (platform_device_register, err);
                 (platform_driver_register, err2);
                 (platform_device_unregister, 0) ])
  else
    (err2, b2, [ (platform_device_register, err);
                 (platform_driver_register, err2) ]).

Definition sunxi_ir_exit (B : bus) (b : bus_state B)
  : bus_state B * bus_trace :=
  let '(_, b1) := bus_respond B b platform_driver_unregister in
  let '(_, b2) := bus_respond B b1 platform_device_unregister in
  (b2, [ (platform_driver_unregister, 0); (platform_device_unregister, 0) ]).

(** What is registered with the bus after a trace, most recent first. *)
Inductive registration := the_device | the_driver.

Definition bus_step (l : list registration) (ev : bus_call * Z)
  : list registration :=
  match ev with
  | (platform_device_register, r) => if r =? 0 then the_device :: l else l
  | (platform_driver_register, r) => if r =? 0 then the_driver :: l else l
  | (platform_device_unregister, _) =>
      match l with the_device :: rest => rest | _ => l end
  | (platform_driver_unregister, _) =>
      match l with the_driver :: rest => rest | _ => l end
  end.

Definition registered (tr : bus_trace) : list registration :=
  fold_left bus_step tr [].

(** A bus that answers from a fixed table. *)
Definition fixed_bus (table : bus_call -> Z) : bus :=
  mk_bus unit (fun _ c => (table c, tt)).

Definition driver_refused (c : bus_call) : Z :=
  match c with
  | platform_driver_register => -16
  | _ => 0
  end.

(** A kernel in which the interrupt line is busy. *)
Definition irq_busy (c : call) : Z :=
  match c with
  | request_irq _ _ => -16
  | _ => healthy c
  end.

(** ** The interrupt handler *)

Section Handler.

Variable E : environment.

Lemma drain_fifo_trace (n : nat) (c : sunxi_ir_chip) (s : state E) :
  exists ws,
    length ws = n /\
    chip (final (drain_fifo E n c s)) = chip s /\
    calls (drain_fifo E n c s) = flat_map (sample_calls c) ws.
Proof.
  revert s; induction n as [|n IH]; intro s.
  - exists []. repeat split.
  - cbn [drain_fifo]. unfold bind, extern, void.
    destruct (respond E (world s) (readl (gaddr c + IR_RXDAT_REG)))
      as [v w1] eqn:R1.
    cbn [world drvdata chip].
    destruct (respond E w1 _) as [v2 w2] eqn:R2.
    cbn [world drvdata chip].
    destruct (respond E w2 _) as [v3 w3] eqn:R3.
    cbn [world drvdata chip].
    destruct (IH (mk_state w3 (drvdata s) (chip s))) as (ws & Hl & Hc & Ht).
    destruct (drain_fifo E n c _) as [[u s'] t'].
    unfold final, calls in *; cbn [fst snd] in *.
    exists (u32 v :: ws). cbn [length flat_map returned].
    repeat split; [congruence | assumption |].
    rewrite Ht. reflexivity.
Qed.

Lemma sunxi_ir_irq_trace (irq devid : Z) (s : state E) :
  exists intsta ws,
    0 <= intsta < 2 ^ 32 /\
    length ws = Z.to_nat (status_scnt intsta) /\
    result (sunxi_ir_irq E irq devid s) = IRQ_HANDLED /\
    calls (sunxi_ir_irq E irq devid s) = irq_trace (chip s) intsta ws.
Proof.
  unfold sunxi_ir_irq, bind, get_chip, void, extern, when.
  destruct (respond E (world s) spin_lock_irqsave) as [v0 w0].
  cbn [world drvdata chip].
  destruct (respond E w0 _) as [v1 w1].
  cbn [world drvdata chip returned].
  destruct (respond E w1 _) as [v2 w2].
  cbn [world drvdata chip].
  set (intsta := u32 v1).
  destruct (drain_fifo_trace (Z.to_nat (u8 (Z.land (Z.shiftr intsta 8) 0xff)))
              (chip s) (mk_state w2 (drvdata s) (chip s)))
    as (ws & Hl & Hc & Ht).
  destruct (drain_fifo E _ (chip s) _) as [[u s3] t3].
  unfold final, calls in Hc, Ht; cbn [fst snd chip] in Hc, Ht.
  exists intsta, ws.
  split; [apply Z.mod_pos_bound; lia|].
  split; [exact Hl|].
  unfold irq_trace, idle_calls, reset_calls, ret.
  destruct (negb (Z.land intsta IR_RXINTS_RXPE =? 0));
    destruct (negb (Z.land intsta IR_RXINTS_RXOF =? 0));
    repeat match goal with
           | |- context [respond E ?w ?c] =>
               destruct (respond E w c) as [? ?]; cbn [world drvdata chip]
           end;
    unfold result, calls; cbn [fst snd]; subst t3;
    split; try reflexivity;
    cbn [app]; rewrite <- ?app_assoc; reflexivity.
Qed.

End Handler.

(** ** Bit-level facts about status words and samples *)

Lemma land_bit_eqb (v : Z) (n : Z) :
  0 <= n -> negb (Z.land v (Z.shiftl 1 n) =? 0) = Z.testbit v n.
Proof.
  intro Hn. rewrite Z.shiftl_1_l.
  destruct (Z.testbit v n) eqn:B.
  - apply negb_true_iff, Z.eqb_neq. intro H.
    assert (T : Z.testbit (Z.land v (2 ^ n)) n = true).
    { rewrite Z.land_spec, B, Z.pow2_bits_true by assumption. reflexivity. }
    rewrite H, Z.bits_0 in T. discriminate.
  - apply negb_false_iff, Z.eqb_eq. apply Z.bits_inj'. intros m Hm.
    rewrite Z.land_spec, Z.bits_0, Z.pow2_bits_eqb by assumption.
    destruct (Z.eqb_spec n m) as [->|]; [rewrite B|]; auto using andb_false_r.
Qed.

Lemma rxpe_is_packet_end (v : Z) :
  negb (Z.land v IR_RXINTS_RXPE =? 0) = packet_end v.
Proof. apply (land_bit_eqb v 1). lia. Qed.

Lemma rxof_is_overflow (v : Z) :
  negb (Z.land v IR_RXINTS_RXOF =? 0) = overflow v.
Proof. apply (land_bit_eqb v 0). lia. Qed.

Lemma status_scnt_is_count (v : Z) : status_scnt v = available_count v.
Proof.
  unfold status_scnt, available_count, u8.
  change 0xff with (Z.ones 8).
  rewrite Z.land_ones, Z.shiftr_div_pow2 by lia.
  apply Z.mod_mod. lia.
Qed.

Lemma u8_range (w : Z) : 0 <= u8 w < 256.
Proof. unfold u8. change (2 ^ 8) with 256. apply Z.mod_pos_bound. lia. Qed.

Lemma sample_ticks_range (b : Z) : 0 <= sample_ticks b <= 127.
Proof.
  unfold sample_ticks, PERIOD_MASK.
  change (Z.land b 0x7f) with (Z.land b (Z.ones 7)).
  rewrite Z.land_ones by lia. change (2 ^ 7) with 128.
  pose proof (Z.mod_pos_bound b 128). lia.
Qed.

Lemma CIR_SAMPLE_PERIOD_ns : CIR_SAMPLE_PERIOD = 8000.
Proof. reflexivity. Qed.

Lemma sample_duration_exact (b : Z) :
  sample_duration b = sample_ticks b * CIR_SAMPLE_PERIOD.
Proof.
  unfold sample_duration, u32. rewrite CIR_SAMPLE_PERIOD_ns.
  pose proof (sample_ticks_range b).
  change (2 ^ 32) with 4294967296. apply Z.mod_small. lia.
Qed.

(** ** What the observers see in a handler trace *)

Lemma regs_apart (g a b : Z) : a <> b -> (g + a =? g + b) = false.
Proof. intro H. apply Z.eqb_neq. lia. Qed.

Ltac reg_cases :=
  rewrite ?Z.eqb_refl, ?(regs_apart _ IR_RXINTS_REG IR_RXDAT_REG),
    ?(regs_apart _ IR_RXDAT_REG IR_RXINTS_REG) by discriminate.

Lemma fifo_reads_drain (c : sunxi_ir_chip) (ws : list Z) :
  reads_at (gaddr c + IR_RXDAT_REG) (flat_map (sample_calls c) ws) = ws.
Proof.
  induction ws as [|w ws IH]; [reflexivity|].
  cbn [flat_map]. unfold reads_at in *. rewrite flat_map_app, IH.
  cbn [sample_calls flat_map app]. reg_cases. reflexivity.
Qed.

Lemma status_reads_drain (c : sunxi_ir_chip) (ws : list Z) :
  reads_at (gaddr c + IR_RXINTS_REG) (flat_map (sample_calls c) ws) = [].
Proof.
  induction ws as [|w ws IH]; [reflexivity|].
  cbn [flat_map]. unfold reads_at in *. rewrite flat_map_app, IH.
  cbn [sample_calls flat_map app]. reg_cases. reflexivity.
Qed.

Lemma writes_drain (a : Z) (c : sunxi_ir_chip) (ws : list Z) :
  writes_at a (flat_map (sample_calls c) ws) = [].
Proof.
  induction ws as [|w ws IH]; [reflexivity|].
  cbn [flat_map]. unfold writes_at in *. rewrite flat_map_app, IH.
  reflexivity.
Qed.

Lemma pushes_drain (c : sunxi_ir_chip) (ws : list Z) :
  pushes (flat_map (sample_calls c) ws)
  = map (fun w => sample_event (u8 w)) ws.
Proof.
  induction ws as [|w ws IH]; [reflexivity|].
  cbn [flat_map map]. unfold pushes in *. rewrite flat_map_app, IH.
  reflexivity.
Qed.

Lemma sink_calls_drain (c : sunxi_ir_chip) (ws : list Z) :
  sink_calls (flat_map (sample_calls c) ws)
  = map (fun w => push_of (sample_event (u8 w))) ws.
Proof.
  induction ws as [|w ws IH]; [reflexivity|].
  cbn [flat_map map]. unfold sink_calls in *. rewrite flat_map_app, IH.
  reflexivity.
Qed.

Ltac split_irq_trace :=
  unfold irq_trace, idle_calls, reset_calls;
  match goal with
  | |- context [negb (Z.land ?i IR_RXINTS_RXPE =? 0)] =>
      rewrite ?(rxpe_is_packet_end i), ?(rxof_is_overflow i)
  end.

Lemma fifo_reads_irq_trace (c : sunxi_ir_chip) (intsta : Z) (ws : list Z) :
  reads_at (gaddr c + IR_RXDAT_REG) (irq_trace c intsta ws) = ws.
Proof.
  split_irq_trace. pose proof (fifo_reads_drain c ws) as H.
  unfold reads_at in *. rewrite !flat_map_app, H.
  cbn [flat_map app]. reg_cases.
  destruct (packet_end intsta), (overflow intsta); cbn; apply app_nil_r.
Qed.

Lemma status_reads_irq_trace (c : sunxi_ir_chip) (intsta : Z) (ws : list Z) :
  reads_at (gaddr c + IR_RXINTS_REG) (irq_trace c intsta ws) = [intsta].
Proof.
  split_irq_trace. pose proof (status_reads_drain c ws) as H.
  unfold reads_at in *. rewrite !flat_map_app, H.
  cbn [flat_map app]. reg_cases.
  destruct (packet_end intsta), (overflow intsta); reflexivity.
Qed.

Lemma status_writes_irq_trace (c : sunxi_ir_chip) (intsta : Z) (ws : list Z) :
  writes_at (gaddr c + IR_RXINTS_REG) (irq_trace c intsta ws)
  = [Z.land intsta 0xff].
Proof.
  split_irq_trace. pose proof (writes_drain (gaddr c + IR_RXINTS_REG) c ws) as H.
  unfold writes_at in *. rewrite !flat_map_app, H.
  cbn [flat_map app]. reg_cases.
  destruct (packet_end intsta), (overflow intsta); reflexivity.
Qed.

Lemma pushes_irq_trace (c : sunxi_ir_chip) (intsta : Z) (ws : list Z) :
  pushes (irq_trace c intsta ws) = map (fun w => sample_event (u8 w)) ws.
Proof.
  split_irq_trace. pose proof (pushes_drain c ws) as H.
  unfold pushes in *. rewrite !flat_map_app, H.
  destruct (packet_end intsta), (overflow intsta); cbn; apply app_nil_r.
Qed.

Lemma sink_calls_irq_trace (c : sunxi_ir_chip) (intsta : Z) (ws : list Z) :
  sink_calls (irq_trace c intsta ws)
  = map (fun w => push_of (sample_event (u8 w))) ws
    ++ (if packet_end intsta then [notify_idle] else [])
    ++ (if overflow intsta then [notify_reset] else []).
Proof.
  split_irq_trace. pose proof (sink_calls_drain c ws) as H.
  unfold sink_calls in *. rewrite !flat_map_app, H.
  destruct (packet_end intsta), (overflow intsta); reflexivity.
Qed.

Lemma Forall2_map_of {A B} (R : A -> B -> Prop) (f : A -> B) (l : list A) :
  (forall a, R a (f a)) -> Forall2 R l (map f l).
Proof. intro H. induction l; constructor; auto. Qed.

(** ** Claims about the interrupt handler *)

(** C1.  In any run of the handler, the words read from the data register and
    the events stored line up one to one, and for the byte [b] kept of each
    word the event's level is [(b & 0x80) != 0], its tick count is
    [b & 0x7f] and its duration is exactly ticks times the sample period, the
    period being 8000 ns. *)
Theorem irq_sample_decoding (E : environment) (irq devid : Z) (s : state E) :
  let tr := calls (sunxi_ir_irq E irq devid s) in
  CIR_SAMPLE_PERIOD = 8000 /\
  Forall2 (fun w e =>
             let b := u8 w in
             pulse e = negb (Z.land b 0x80 =? 0) /\
             sample_ticks b = Z.land b 0x7f /\
             duration e = sample_ticks b * CIR_SAMPLE_PERIOD)
          (reads_at (gaddr (chip s) + IR_RXDAT_REG) tr) (pushes tr).
Proof.
  destruct (sunxi_ir_irq_trace E irq devid s) as (intsta & ws & _ & _ & _ & Ht).
  cbv zeta. rewrite Ht, fifo_reads_irq_trace, pushes_irq_trace.
  split; [reflexivity|].
  apply Forall2_map_of. intro w. cbn [pulse duration sample_event].
  repeat split. apply sample_duration_exact.
Qed.

(** C2.  In any run of the handler the status register is read once; with
    [N] the count field of the word read, exactly [N] events are stored, they
    are the conversions of the words popped from the data register in the
    order they were popped, and the calls made to the event sink are those
    [N] pushes followed by [notify_idle] if the packet-end bit was set and
    then [notify_reset] if the overflow bit was set - also when [N] is 0. *)
Theorem irq_drains_in_order (E : environment) (irq devid : Z) (s : state E) :
  let tr := calls (sunxi_ir_irq E irq devid s) in
  exists intsta,
    reads_at (gaddr (chip s) + IR_RXINTS_REG) tr = [intsta] /\
    length (pushes tr) = Z.to_nat (available_count intsta) /\
    length (reads_at (gaddr (chip s) + IR_RXDAT_REG) tr)
      = Z.to_nat (available_count intsta) /\
    pushes tr = map (fun w => sample_event (u8 w))
                    (reads_at (gaddr (chip s) + IR_RXDAT_REG) tr) /\
    sink_calls tr = map push_of (pushes tr)
                    ++ (if packet_end intsta then [notify_idle] else [])
                    ++ (if overflow intsta then [notify_reset] else []).
Proof.
  destruct (sunxi_ir_irq_trace E irq devid s) as (intsta & ws & _ & Hl & _ & Ht).
  cbv zeta. exists intsta.
  rewrite Ht, status_reads_irq_trace, fifo_reads_irq_trace, pushes_irq_trace,
    sink_calls_irq_trace, length_map, map_map, <- status_scnt_is_count.
  repeat split; assumption.
Qed.

(** C3, as stated, fails: with status 0x0201 (overflow, two samples waiting)
    the handler writes back 0x01. *)
Lemma irq_status_not_written_back_unchanged :
  ~ written_back_unchanged (gaddr running_chip + IR_RXINTS_REG)
      (calls (sunxi_ir_irq scripted_env 0 0x400 (receiver 0x0201 [0x85; 0x02]))).
Proof.
  intros (v & Hr & Hw). vm_compute in Hr, Hw. congruence.
Qed.

(** C3, amended.  In any run of the handler the status register is read
    exactly once, right after the lock is taken, and written exactly once,
    right after that read; the word written is the word read with everything
    above bit 7 masked off, so a bit is written as 1 exactly when it is one
    of the low eight and was 1 in the word read. *)
Theorem irq_status_ack (E : environment) (irq devid : Z) (s : state E) :
  let tr := calls (sunxi_ir_irq E irq devid s) in
  let a := gaddr (chip s) + IR_RXINTS_REG in
  exists intsta rest,
    tr = (spin_lock_irqsave, 0) :: (readl a, intsta)
           :: (writel (Z.land intsta 0xff) a, 0) :: rest /\
    reads_at a tr = [intsta] /\
    writes_at a tr = [Z.land intsta 0xff] /\
    forall n : nat,
      Z.testbit (Z.land intsta 0xff) (Z.of_nat n)
      = Z.testbit intsta (Z.of_nat n) && (Z.of_nat n <? 8).
Proof.
  destruct (sunxi_ir_irq_trace E irq devid s) as (intsta & ws & _ & _ & _ & Ht).
  cbv zeta. rewrite Ht, status_reads_irq_trace, status_writes_irq_trace.
  exists intsta. eexists. split; [reflexivity|]. repeat split.
  intro n. change 0xff with (Z.ones 8).
  rewrite Z.land_spec, Z.testbit_ones by lia.
  destruct (Z.leb_spec 0 (Z.of_nat n)); [reflexivity | lia].
Qed.

(** C9.  Whatever the status word and the FIFO hold, the handler returns
    [IRQ_HANDLED]. *)
Theorem irq_always_handled (E : environment) (irq devid : Z) (s : state E) :
  result (sunxi_ir_irq E irq devid s) = IRQ_HANDLED.
Proof.
  destruct (sunxi_ir_irq_trace E irq devid s) as (intsta & ws & _ & _ & Hr & _).
  exact Hr.
Qed.

(** C10.  For every word popped from the data register and the event stored
    for it: the product of ticks and period stays at or below
    127 * 8000 = 1016000, below 2^32, so the stored 32-bit duration is the
    product itself; it is a multiple of 8000; and it is zero exactly when the
    tick field [b & 0x7f] is zero. *)
Theorem irq_duration_bounds (E : environment) (irq devid : Z) (s : state E) :
  let tr := calls (sunxi_ir_irq E irq devid s) in
  127 * 8000 = 1016000 /\
  Forall2 (fun w e =>
             let ticks := Z.land (u8 w) 0x7f in
             ticks * CIR_SAMPLE_PERIOD <= 1016000 /\
             ticks * CIR_SAMPLE_PERIOD < 2 ^ 32 /\
             duration e = ticks * 8000 /\
             0 <= duration e <= 1016000 /\
             (8000 | duration e) /\
             (duration e = 0 <-> ticks = 0))
          (reads_at (gaddr (chip s) + IR_RXDAT_REG) tr) (pushes tr).
Proof.
  destruct (sunxi_ir_irq_trace E irq devid s) as (intsta & ws & _ & _ & _ & Ht).
  cbv zeta. rewrite Ht, fifo_reads_irq_trace, pushes_irq_trace.
  split; [reflexivity|].
  apply Forall2_map_of. intro w. cbn [duration sample_event].
  rewrite sample_duration_exact, CIR_SAMPLE_PERIOD_ns.
  pose proof (sample_ticks_range (u8 w)) as R.
  unfold sample_ticks, PERIOD_MASK in *.
  change (2 ^ 32) with 4294967296.
  repeat split; try lia.
  exists (Z.land (u8 w) 0x7f). lia.
Qed.

(** C7.  The clock is 8 MHz and the divider 64, which makes the sample period
    8000 ns; byte 0x85 becomes a 40000 ns mark and byte 0x02 a 16000 ns
    space; and a receiver whose status word has the overflow bit set and a
    count of two, with those two bytes in its FIFO, gets exactly two pushes
    followed by one [notify_reset]. *)
Theorem end_to_end_scenario :
  IR_CLOCK_RATE = 8000000 /\
  Z.shiftl 64 IR_SAMPLE_CLK_SEL = 64 /\
  CIR_SAMPLE_PERIOD = 8000 /\
  sample_event 0x85 = mk_raw_event true 40000 /\
  sample_event 0x02 = mk_raw_event false 16000 /\
  overflow 0x0201 = true /\
  available_count 0x0201 = 2 /\
  sink_calls
    (calls (sunxi_ir_irq scripted_env 0 0x400 (receiver 0x0201 [0x85; 0x02])))
  = [push true 40000; push false 16000; notify_reset].
Proof. repeat split; vm_compute; reflexivity. Qed.

(** ** Setup and teardown *)

(** Walking every path of a computation: name each answer of the
    environment, split on each test the driver makes of it. *)
Ltac answer :=
  match goal with
  | |- context [respond ?E ?w ?c] =>
      let v := fresh "v" in
      let w' := fresh "w" in
      destruct (respond E w c) as [v w']; cbn [world drvdata chip returned]
  end.

(** Replaying the tests already made. *)
Ltac recall :=
  repeat match goal with
         | H : ?b = _ |- context [?b] => rewrite H
         end.

Ltac branch :=
  match goal with
  | |- context [if ?b then _ else _] =>
      lazymatch b with
      | context [respond] => fail
      | negb ?x => destruct x eqn:?
      | _ => destruct b eqn:?
      end
  end.

Ltac explore :=
  unfold attach_then_detach, sunxi_ir_probe, sunxi_ir_remove,
    ir_setup, err_setup, err_map, err_irq, err_register, err_allocate,
    ir_stop, when, bind, extern, void, ret, get_chip, set_chip,
    platform_set_drvdata, platform_get_drvdata, result, final, calls;
  repeat (first [answer | progress recall | branch];
          cbn [world drvdata chip returned fst snd app rcdev gaddr gpio_hdle
               apb_ir_clk ir_clk zeroed_chip negb SUCCESS];
          try change (0 =? 0) with true; cbn [negb]).

Ltac settle :=
  repeat (cbn -[Z.add Z.opp Z.ltb Z.eqb ledger_of];
          rewrite ?Z.eqb_refl, ?andb_true_r; recall).

(** A path on which an errno constant would be zero. *)
Ltac impossible :=
  exfalso; unfold SUCCESS in *;
  repeat match goal with
         | H : negb _ = false |- _ => apply negb_false_iff in H
         | H : (_ =? _) = true |- _ => apply Z.eqb_eq in H
         end;
  lia.

(** Keeping the books one call at a time. *)
Ltac split_eqb :=
  match goal with
  | |- context [if ?b then _ else _] =>
      match b with
      | context [Z.eqb ?x ?y] => destruct (Z.eqb x y) eqn:?
      end
  end.

Lemma ledger_cons (l : ledger) (ev : event) (tr : trace) :
  fold_left ledger_step (ev :: tr) l
  = fold_left ledger_step tr (ledger_step l ev).
Proof. reflexivity. Qed.

Lemma ledger_step_eq (l : ledger) (ev : event) :
  ledger_step l ev
  = match acquires ev with
    | Some r => mk_ledger (r :: held l) (in_order l) (not_held l)
    | None =>
        match releases ev with
        | Some r => give_back r l
        | None => l
        end
    end.
Proof. reflexivity. Qed.

Ltac book :=
  unfold ledger_of;
  repeat (rewrite ledger_cons, ledger_step_eq;
          unfold acquires, releases, give_back;
          repeat first [ progress (cbn [held in_order not_held resource_eqb
                                        existsb remove_first app andb orb];
                                   rewrite ?Z.eqb_refl; recall)
                       | split_eqb ]);
  cbn [fold_left].


(** Walking the paths of one run, with the property set aside as [Q]. *)
Ltac paths_of run :=
  pattern run;
  match goal with
  | |- ?F run => set (Q := F)
  end;
  explore.

(** Telling the registers apart in a trace. *)
Ltac registers :=
  rewrite ?Z.eqb_refl;
  repeat match goal with
         | |- context [?g + ?a =? ?g + ?b] =>
             rewrite (regs_apart g a b) by (cbv; discriminate)
         end;
  rewrite ?andb_false_r, ?andb_true_r.

Ltac open_path :=
  match goal with
  | Q := _ |- _ => subst Q; cbv beta; unfold result, final, calls;
                   cbn [fst snd]
  end.

Section Lifecycle.

Variable P : platform.
Variable E : environment.
Hypothesis errno : errno_positive P.

(** C4.  Whenever a step of [ir_setup] fails in a run of [sunxi_ir_probe] -
    the pin request, either clock lookup, the rate setting or either clock
    enable - the probe returns a negative error code, makes no further
    acquisition after the failed step, and by the time it returns has given
    back everything it had acquired, each release giving back the most
    recently acquired resource still held. *)
Theorem probe_setup_failure_unwinds (s : state E) :
  let r := sunxi_ir_probe P E s in
  existsb setup_step_failed (calls r) = true ->
  result r < 0 /\
  stops_at_failure (calls r) = true /\
  held (ledger_of (calls r)) = [] /\
  in_order (ledger_of (calls r)) = true.
Proof.
  destruct errno as (Hm & Hv & Hr & Hio). cbv zeta.
  paths_of (sunxi_ir_probe P E s).
  all: try solve [impossible].
  all: open_path.
  all: settle; intro F; try discriminate F; clear F.
  all: split; [lia|]; split; [reflexivity|].
  all: book; split; reflexivity.
Qed.

(** C5, amended.  In every run of setup followed by teardown - whether setup
    succeeds and [sunxi_ir_remove] runs, or setup fails and unwinds - the
    handler is never deregistered before the register block is unmapped:
    whenever the block is unmapped, that comes first and [free_irq] follows,
    the handler having been registered before the block was mapped.  By the
    time of the unmap the interrupt-enable register has been written 0, and
    no register is read or written after it.  Every release gives back the
    most recently acquired resource still held, and nothing stays held. *)
Theorem teardown_order (s : state E) :
  let r := attach_then_detach P E s in
  let g := gaddr (chip (final r)) in
  happens_before is_free_irq is_iounmap (calls r) = false /\
  implb (existsb (fun e : event => is_iounmap (fst e)) (calls r))
        (happens_before is_iounmap is_free_irq (calls r)) = true /\
  implb (existsb (fun e : event => is_iounmap (fst e)) (calls r))
        (happens_before (is_interrupt_disable g) is_iounmap (calls r)) = true /\
  none_after is_iounmap is_register_access (calls r) = true /\
  held (ledger_of (calls r)) = [] /\
  in_order (ledger_of (calls r)) = true.
Proof.
  destruct errno as (Hm & Hv & Hr & Hio). cbv zeta.
  paths_of (attach_then_detach P E s).
  all: try solve [impossible].
  all: open_path; cbn [gaddr chip].
  all: split; [reflexivity|]; split; [reflexivity|].
  all: split; [repeat (cbn -[Z.add Z.eqb Z.lor]; registers); reflexivity|].
  all: split; [reflexivity|].
  all: book; split; reflexivity.
Qed.


(** C8, amended.  A run of [ir_setup] that succeeds writes the
    interrupt-enable register exactly once, with 0x713: bits 0, 1 and 4
    (packet end, illegal symbol, FIFO available) and no other of the low
    eight, and in the field above bit 7 half the FIFO depth less one, which
    is 7 for the 16-byte FIFO. *)
Theorem setup_interrupt_enable (s : state E) :
  let r := ir_setup P E s in
  result r = SUCCESS ->
  writes_at (gaddr (chip s) + IR_RXINTE_REG) (calls r) = [rxinte_setup_value] /\
  rxinte_setup_value = 0x713 /\
  Z.land rxinte_setup_value 0xff = Z.lor (Z.lor RPEI_EN RISI_EN) RAI_EN /\
  Z.testbit rxinte_setup_value 0 = true /\
  Z.testbit rxinte_setup_value 1 = true /\
  Z.testbit rxinte_setup_value 4 = true /\
  Z.shiftr rxinte_setup_value 8 = IR_FIFO_SIZE / 2 - 1 /\
  Z.shiftr rxinte_setup_value 8 = 7.
Proof.
  destruct errno as (Hm & Hv & Hr & Hio). cbv zeta.
  paths_of (ir_setup P E s).
  all: open_path; intro Hup.
  all: try solve [exfalso; unfold SUCCESS in *; lia].
  split; [|repeat split].
  repeat (cbn -[Z.add Z.eqb Z.lor rxinte_setup_value]; registers).
  reflexivity.
Qed.

End Lifecycle.

(** ** The claims that fail, on the sun4i platform with a scripted kernel *)

(** C5, as stated, fails: after a successful probe, [sunxi_ir_remove] unmaps
    the register block and only then deregisters the handler. *)
Lemma remove_unmaps_before_deregistering :
  ~ deregistered_before_unmap
      (calls (sunxi_ir_remove sun4i scripted_env
                (final (sunxi_ir_probe sun4i scripted_env (cold healthy))))).
Proof. unfold deregistered_before_unmap. vm_compute. discriminate. Qed.


(** C8, as stated, fails: the field above bit 7 of the word [ir_setup] writes
    to the interrupt-enable register is 7, not 8. *)
Lemma setup_threshold_field_is_not_half_depth :
  ~ threshold_is_half_depth (gaddr (chip mapped) + IR_RXINTE_REG)
      (calls (ir_setup sun4i scripted_env mapped)).
Proof.
  intros (v & Hw & Hf). vm_compute in Hw.
  injection Hw as <-. vm_compute in Hf. discriminate.
Qed.

(** What C4 does not speak of: the unwinding goes through [ir_stop], which
    tests the clock pointers, not whether the clocks were enabled.  When the
    rate setting fails, both clocks are disabled although neither was ever
    enabled; everything that was acquired is still given back in order. *)
Example probe_rate_failure_disables_idle_clocks :
  ledger_of (calls (sunxi_ir_probe sun4i scripted_env (cold rate_rejected)))
  = mk_ledger [] true [clock_enable 0x300; clock_enable 0x200].
Proof. reflexivity. Qed.

(** ** The theorems at work on the sun4i platform *)

Lemma sun4i_errno_positive : errno_positive sun4i.
Proof. repeat split. Qed.

(** C4 at work: the bus clock cannot be found, the second step of
    [ir_setup]; the probe returns [-EINVAL] with nothing held. *)
Lemma probe_setup_failure_unwinds_witness :
  let r := sunxi_ir_probe sun4i scripted_env (cold no_bus_clock) in
  errno_positive sun4i /\
  existsb setup_step_failed (calls r) = true /\
  (result r < 0 /\
   stops_at_failure (calls r) = true /\
   held (ledger_of (calls r)) = [] /\
   in_order (ledger_of (calls r)) = true).
Proof.
  cbv zeta. split; [exact sun4i_errno_positive|]. split; [reflexivity|].
  apply (probe_setup_failure_unwinds sun4i scripted_env sun4i_errno_positive
           (cold no_bus_clock)).
  reflexivity.
Defined.

(** C5 at work: a probe that succeeds, followed by the remove. *)
Lemma teardown_order_witness :
  let r := attach_then_detach sun4i scripted_env (cold healthy) in
  let g := gaddr (chip (final r)) in
  errno_positive sun4i /\
  (happens_before is_free_irq is_iounmap (calls r) = false /\
   implb (existsb (fun e : event => is_iounmap (fst e)) (calls r))
         (happens_before is_iounmap is_free_irq (calls r)) = true /\
   implb (existsb (fun e : event => is_iounmap (fst e)) (calls r))
         (happens_before (is_interrupt_disable g) is_iounmap (calls r)) = true /\
   none_after is_iounmap is_register_access (calls r) = true /\
   held (ledger_of (calls r)) = [] /\
   in_order (ledger_of (calls r)) = true).
Proof.
  cbv zeta. split; [exact sun4i_errno_positive|].
  exact (teardown_order sun4i scripted_env sun4i_errno_positive (cold healthy)).
Defined.


(** C8 at work: [ir_setup] on a mapped chip with a kernel that grants
    everything. *)
Lemma setup_interrupt_enable_witness :
  let r := ir_setup sun4i scripted_env mapped in
  errno_positive sun4i /\
  result r = SUCCESS /\
  (writes_at (gaddr (chip mapped) + IR_RXINTE_REG) (calls r)
   = [rxinte_setup_value] /\
   rxinte_setup_value = 0x713 /\
   Z.land rxinte_setup_value 0xff = Z.lor (Z.lor RPEI_EN RISI_EN) RAI_EN /\
   Z.testbit rxinte_setup_value 0 = true /\
   Z.testbit rxinte_setup_value 1 = true /\
   Z.testbit rxinte_setup_value 4 = true /\
   Z.shiftr rxinte_setup_value 8 = IR_FIFO_SIZE / 2 - 1 /\
   Z.shiftr rxinte_setup_value 8 = 7).
Proof.
  cbv zeta. split; [exact sun4i_errno_positive|]. split; [reflexivity|].
  apply (setup_interrupt_enable sun4i scripted_env sun4i_errno_positive mapped).
  reflexivity.
Defined.

(** ** More about the interrupt handler *)

Lemma count_calls_app (p : call -> bool) (t1 t2 : trace) :
  count_calls p (t1 ++ t2) = (count_calls p t1 + count_calls p t2)%nat.
Proof. unfold count_calls. rewrite filter_app, length_app. reflexivity. Qed.

Ltac count_drain :=
  let ws := fresh "ws" in
  let IH := fresh "IH" in
  intros ? ws; induction ws as [|? ws IH]; [reflexivity|];
  cbn [flat_map length]; rewrite count_calls_app, IH; reflexivity.

Lemma count_store_drain :
  forall c ws, count_calls is_store (flat_map (sample_calls c) ws) = length ws.
Proof. count_drain. Qed.

Lemma count_handle_drain :
  forall c ws, count_calls is_handle (flat_map (sample_calls c) ws) = length ws.
Proof. count_drain. Qed.

Lemma count_write_drain :
  forall c ws, count_calls is_write (flat_map (sample_calls c) ws) = 0%nat.
Proof. count_drain. Qed.

Lemma count_lock_drain :
  forall c ws, count_calls is_spin_lock (flat_map (sample_calls c) ws) = 0%nat.
Proof. count_drain. Qed.

Lemma count_unlock_drain :
  forall c ws,
    count_calls is_spin_unlock (flat_map (sample_calls c) ws) = 0%nat.
Proof. count_drain. Qed.

Lemma length_drain (c : sunxi_ir_chip) (ws : list Z) :
  length (flat_map (sample_calls c) ws) = (3 * length ws)%nat.
Proof.
  induction ws as [|w ws IH]; [reflexivity|].
  cbn [flat_map length]. rewrite length_app, IH. cbn [sample_calls length]. lia.
Qed.

Lemma accesses_drain (c : sunxi_ir_chip) (ws : list Z) :
  accesses (flat_map (sample_calls c) ws)
  = repeat (gaddr c + IR_RXDAT_REG) (length ws).
Proof.
  induction ws as [|w ws IH]; [reflexivity|].
  cbn [flat_map length repeat]. unfold accesses in *.
  rewrite flat_map_app, IH. reflexivity.
Qed.

Lemma quiet_drain (c : sunxi_ir_chip) (ws : list Z) :
  Forall (fun ev => acquires ev = None /\ releases ev = None)
         (flat_map (sample_calls c) ws).
Proof.
  induction ws as [|w ws IH]; [constructor|].
  cbn [flat_map]. apply Forall_app. split; [|exact IH].
  repeat constructor.
Qed.

Lemma each_store_handled_drain (c : sunxi_ir_chip) (ws : list Z) (rest : trace) :
  each_store_handled rest = true ->
  each_store_handled (flat_map (sample_calls c) ws ++ rest) = true.
Proof.
  intro H. induction ws as [|w ws IH]; [exact H|].
  cbn [flat_map sample_calls app each_store_handled].
  rewrite Z.eqb_refl. exact IH.
Qed.

Section HandlerState.

Variable E : environment.

Lemma drain_fifo_keeps (n : nat) (c : sunxi_ir_chip) (s : state E) :
  drvdata (final (drain_fifo E n c s)) = drvdata s /\
  chip (final (drain_fifo E n c s)) = chip s.
Proof.
  revert s; induction n as [|n IH]; intro s; [split; reflexivity|].
  cbn [drain_fifo]. unfold bind, extern, void.
  repeat answer.
  match goal with
  | |- context [drain_fifo E n c ?s'] =>
      destruct (IH s') as [Hd Hc]; destruct (drain_fifo E n c s') as [[u s''] t]
  end.
  unfold final in *; cbn [fst snd drvdata chip] in *. split; assumption.
Qed.

Lemma sunxi_ir_irq_keeps (irq devid : Z) (s : state E) :
  drvdata (final (sunxi_ir_irq E irq devid s)) = drvdata s /\
  chip (final (sunxi_ir_irq E irq devid s)) = chip s.
Proof.
  unfold sunxi_ir_irq, bind, get_chip, void, extern, when, ret.
  repeat answer.
  match goal with
  | |- context [drain_fifo E ?n ?c ?s'] =>
      destruct (drain_fifo_keeps n c s') as [Hd Hc];
      destruct (drain_fifo E n c s') as [[u s''] t]
  end.
  unfold final in *; cbn [fst snd drvdata chip] in *.
  repeat match goal with
         | |- context [if ?b then _ else _] => destruct b
         end;
  repeat answer; cbn [fst snd drvdata chip]; split; assumption.
Qed.

End HandlerState.

Section HandlerMore.

Variable E : environment.

Ltac irq_shape intsta ws Hr Hl Ht :=
  match goal with
  | |- context [sunxi_ir_irq E ?irq ?devid ?s] =>
      destruct (sunxi_ir_irq_trace E irq devid s)
        as (intsta & ws & Hr & Hl & _ & Ht)
  end;
  cbv zeta; rewrite ?Ht.

Ltac flags intsta :=
  unfold irq_trace, idle_calls, reset_calls;
  rewrite ?(rxpe_is_packet_end intsta), ?(rxof_is_overflow intsta);
  destruct (packet_end intsta), (overflow intsta).

(** X1.  The handler takes the lock first and drops it last, once each:
    everything else it does lies between the two. *)
Theorem irq_lock_brackets (irq devid : Z) (s : state E) :
  let tr := calls (sunxi_ir_irq E irq devid s) in
  exists middle,
    tr = (spin_lock_irqsave, 0) :: middle ++ [(spin_unlock_irqrestore, 0)] /\
    count_calls is_spin_lock middle = 0%nat /\
    count_calls is_spin_unlock middle = 0%nat.
Proof.
  irq_shape intsta ws Hr Hl Ht.
  exists ([ (readl (gaddr (chip s) + IR_RXINTS_REG), intsta);
            (writel (Z.land intsta 0xff) (gaddr (chip s) + IR_RXINTS_REG), 0) ]
          ++ flat_map (sample_calls (chip s)) ws
          ++ idle_calls (chip s) intsta ++ reset_calls (chip s) intsta).
  split; [unfold irq_trace; cbn [app]; rewrite <- !app_assoc; reflexivity|].
  rewrite !count_calls_app, count_lock_drain, count_unlock_drain.
  flags intsta; split; reflexivity.
Qed.

(** X2.  The only registers the handler touches are the status register,
    read once and written once, and the data register, read as many times
    as the count field says; it writes nothing else, and it acquires and
    releases nothing. *)
Theorem irq_touches_only_status_and_data (irq devid : Z) (s : state E) :
  let tr := calls (sunxi_ir_irq E irq devid s) in
  let g := gaddr (chip s) in
  exists intsta,
    reads_at (g + IR_RXINTS_REG) tr = [intsta] /\
    accesses tr
    = [g + IR_RXINTS_REG; g + IR_RXINTS_REG]
      ++ repeat (g + IR_RXDAT_REG) (Z.to_nat (available_count intsta)) /\
    count_calls is_write tr = 1%nat /\
    Forall (fun ev => acquires ev = None /\ releases ev = None) tr.
Proof.
  irq_shape intsta ws Hr Hl Ht. exists intsta.
  rewrite status_reads_irq_trace, <- status_scnt_is_count, <- Hl.
  split; [reflexivity|]. split; [|split].
  - pose proof (accesses_drain (chip s) ws) as H. unfold accesses in *.
    unfold irq_trace. rewrite !flat_map_app, H.
    flags intsta; cbn [flat_map app]; rewrite ?app_nil_r; reflexivity.
  - unfold irq_trace. rewrite !count_calls_app, count_write_drain.
    flags intsta; reflexivity.
  - pose proof (quiet_drain (chip s) ws) as H.
    unfold irq_trace. rewrite !Forall_app.
    flags intsta; repeat split; try assumption; repeat constructor.
Qed.

(** X3.  The work of one invocation is bounded: it makes four calls, three
    more for each sample the count field announces, and one more for each of
    the packet-end and overflow bits - never more than 771. *)
Theorem irq_call_count (irq devid : Z) (s : state E) :
  let tr := calls (sunxi_ir_irq E irq devid s) in
  exists intsta,
    reads_at (gaddr (chip s) + IR_RXINTS_REG) tr = [intsta] /\
    length tr
    = (4 + 3 * Z.to_nat (available_count intsta)
       + (if packet_end intsta then 1 else 0)
       + (if overflow intsta then 1 else 0))%nat /\
    (length tr <= 771)%nat.
Proof.
  irq_shape intsta ws Hr Hl Ht. exists intsta.
  rewrite status_reads_irq_trace, <- status_scnt_is_count, <- Hl.
  split; [reflexivity|].
  assert (Hn : (length ws <= 255)%nat).
  { rewrite Hl. unfold status_scnt.
    pose proof (u8_range (Z.land (Z.shiftr intsta 8) 0xff)). lia. }
  unfold irq_trace. rewrite !length_app, length_drain.
  flags intsta; cbn [length]; lia.
Qed.

(** X4.  Each event stored is handed to [ir_raw_event_handle] at once, on
    the same rc device, before the next sample is read: stores and handles
    alternate, and there are as many of each as the count field says. *)
Theorem irq_each_store_handled (irq devid : Z) (s : state E) :
  let tr := calls (sunxi_ir_irq E irq devid s) in
  exists intsta,
    reads_at (gaddr (chip s) + IR_RXINTS_REG) tr = [intsta] /\
    each_store_handled tr = true /\
    count_calls is_store tr = Z.to_nat (available_count intsta) /\
    count_calls is_handle tr = Z.to_nat (available_count intsta).
Proof.
  irq_shape intsta ws Hr Hl Ht. exists intsta.
  rewrite status_reads_irq_trace, <- status_scnt_is_count, <- Hl.
  split; [reflexivity|]. split; [|split].
  - unfold irq_trace. cbn [app each_store_handled].
    apply each_store_handled_drain. flags intsta; reflexivity.
  - unfold irq_trace. rewrite !count_calls_app, count_store_drain.
    flags intsta; cbn; lia.
  - unfold irq_trace. rewrite !count_calls_app, count_handle_drain.
    flags intsta; cbn; lia.
Qed.

(** X5.  The handler keeps nothing from one invocation to the next: it
    leaves the chip structure and the driver-data pointer as they were, so a
    second invocation, whatever the first one saw (an overflow included),
    again reads the status register of the same block once and forwards what
    its own status word announces. *)
Theorem irq_back_to_back (irq devid : Z) (s : state E) :
  let first := sunxi_ir_irq E irq devid s in
  let second := sunxi_ir_irq E irq devid (final first) in
  chip (final first) = chip s /\
  drvdata (final first) = drvdata s /\
  exists intsta,
    reads_at (gaddr (chip s) + IR_RXINTS_REG) (calls second) = [intsta] /\
    length (pushes (calls second)) = Z.to_nat (available_count intsta) /\
    sink_calls (calls second)
    = map push_of (pushes (calls second))
      ++ (if packet_end intsta then [notify_idle] else [])
      ++ (if overflow intsta then [notify_reset] else []).
Proof.
  cbv zeta.
  destruct (sunxi_ir_irq_keeps E irq devid s) as [Hd Hc].
  split; [exact Hc|]. split; [exact Hd|].
  destruct (sunxi_ir_irq_trace E irq devid (final (sunxi_ir_irq E irq devid s)))
    as (intsta & ws & _ & Hl & _ & Ht).
  rewrite Hc in Ht. exists intsta.
  rewrite Ht, status_reads_irq_trace, pushes_irq_trace, sink_calls_irq_trace,
    length_map, map_map, <- status_scnt_is_count.
  repeat split. exact Hl.
Qed.

End HandlerMore.

(** ** The sample conversion, backwards *)

Lemma byte_cases (p : Z -> bool) :
  forallb p (map Z.of_nat (seq 0 256)) = true ->
  forall b, 0 <= b < 256 -> p b = true.
Proof.
  intros H b Hb. rewrite forallb_forall in H. apply H.
  apply in_map_iff. exists (Z.to_nat b). split; [lia|].
  apply in_seq. lia.
Qed.

(** X6.  Nothing of a FIFO byte is lost in the conversion: the byte kept of
    the word read is the level bit of the event stored plus its duration
    counted in sample periods. *)
Theorem sample_event_recovers_byte (w : Z) :
  let e := sample_event (u8 w) in
  u8 w = (if pulse e then VALUE_MASK else 0) + duration e / CIR_SAMPLE_PERIOD.
Proof.
  cbv zeta.
  pose proof (byte_cases
    (fun b => b =? (if pulse (sample_event b) then VALUE_MASK else 0)
                   + duration (sample_event b) / CIR_SAMPLE_PERIOD)) as H.
  apply Z.eqb_eq. apply H; [vm_compute; reflexivity | apply u8_range].
Qed.

(** ** More about setup and teardown *)

Lemma enable_bits (t z : Z) :
  0 <= z ->
  Z.testbit (Z.lor (Z.lor t IR_GLOB_EN) IR_RX_EN) z = Z.testbit t z || (z <? 2).
Proof.
  intro Hz. unfold IR_GLOB_EN, IR_RX_EN.
  rewrite !Z.lor_spec, <- orb_assoc, !Z.shiftl_1_l.
  rewrite !Z.pow2_bits_eqb by lia. f_equal.
  destruct (Z.eqb_spec 0 z), (Z.eqb_spec 1 z), (Z.ltb_spec z 2);
    try reflexivity; lia.
Qed.

Section SetupStop.

Variable P : platform.
Variable E : environment.

(** X8.  [ir_setup] returns [SUCCESS] when none of its six steps fails.
    Otherwise it returns the error code of the first step that failed -
    [-EINVAL] for the pin request and the clock lookups, [-EINTR] for the
    rate setting and the clock enables - that step is the last call it
    makes, and it has touched no register. *)
Theorem ir_setup_result (s : state E) :
  let r := ir_setup P E s in
  match find step_failed (calls r) with
  | Some ev =>
      result r = error_code P ev /\
      last (calls r) ev = ev /\
      setup_step_failed ev = true /\
      accesses (calls r) = []
  | None => result r = SUCCESS
  end.
Proof.
  cbv zeta. paths_of (ir_setup P E s).
  all: open_path; settle; repeat split.
Qed.

(** X10.  [ir_stop] writes three registers and reads none: it masks the
    receiver's interrupts, clears the pending status, and only then switches
    the block off.  It disables the module clock and then the bus clock,
    skipping a clock whose pointer is null, and releases the pin whatever
    its handle is, a null handle included.  It clears no member of the chip
    structure. *)
Theorem ir_stop_behaviour (s : state E) :
  let r := ir_stop E s in
  let c := chip s in
  calls r = stop_trace c /\
  chip (final r) = c /\
  drvdata (final r) = drvdata s /\
  accesses (calls r)
  = [gaddr c + IR_RXINTE_REG; gaddr c + IR_RXINTS_REG; gaddr c + IR_CTRL_REG] /\
  count_calls is_read (calls r) = 0%nat /\
  ~ In (clk_disable 0, 0) (calls r) /\
  count_calls is_gpio_release (calls r) = 1%nat.
Proof.
  cbv zeta. paths_of (ir_stop E s).
  all: open_path; unfold stop_trace; recall; cbn [negb app chip drvdata].
  all: repeat split; try reflexivity.
  all: intro H; cbn [In] in H;
    repeat match goal with
           | H : _ \/ _ |- _ => destruct H as [H|H]
           end;
    try discriminate H; try contradiction;
    injection H as H; rewrite H in *; discriminate.
Qed.

(** X11.  [ir_stop] undoes [ir_setup] wherever [ir_setup] stopped: after
    the two in sequence no clock enable and no pin is held, whatever was
    acquired was given back in reverse order, and the last words written to
    the interrupt-enable and the control register are 0. *)
Theorem setup_then_stop (s : state E) :
  let r := bind E (ir_setup P E) (fun _ => ir_stop E) s in
  let g := gaddr (chip s) in
  held (ledger_of (calls r)) = [] /\
  in_order (ledger_of (calls r)) = true /\
  last (writes_at (g + IR_RXINTE_REG) (calls r)) 1 = 0 /\
  last (writes_at (g + IR_CTRL_REG) (calls r)) 1 = 0.
Proof.
  cbv zeta. paths_of (bind E (ir_setup P E) (fun _ => ir_stop E) s).
  all: open_path.
  all: split; [book; reflexivity|]; split; [book; reflexivity|].
  all: split; repeat (cbn -[Z.add Z.eqb Z.lor]; registers); reflexivity.
Qed.

Hypothesis errno : errno_positive P.

(** X7.  A run of [ir_setup] that succeeds makes exactly these calls, in
    this order: the pin request, the two clock lookups, the rate of the
    module clock set to 8 MHz, the bus clock enabled, then the module clock;
    then the registers - mode, sample configuration, inversion, status
    cleared with 0xff, interrupt enables - and last the control register
    read back and written with the two enable bits added.  The chip holds
    the three handles obtained, none of them null. *)
Theorem ir_setup_success_trace (s : state E) :
  let r := ir_setup P E s in
  let c := chip s in
  result r = SUCCESS ->
  exists h a i tmp,
    calls r = setup_trace c h a i tmp /\
    chip (final r) = mk_chip (rcdev c) (gaddr c) h a i /\
    drvdata (final r) = drvdata s /\
    h <> 0 /\ a <> 0 /\ i <> 0 /\ 0 <= tmp < 2 ^ 32.
Proof.
  destruct errno as (Hm & Hv & Hr & Hio). cbv zeta.
  paths_of (ir_setup P E s).
  all: open_path; cbn [chip drvdata]; intro Hup.
  all: try solve [exfalso; unfold SUCCESS in *; lia].
  repeat match goal with
         | H : (?x =? 0) = true |- _ => apply Z.eqb_eq in H; subst x
         end.
  do 4 eexists. split; [reflexivity|]. split; [reflexivity|].
  split; [reflexivity|].
  repeat match goal with
         | H : (_ =? 0) = false |- _ => apply Z.eqb_neq in H
         end.
  repeat split; try assumption; apply Z.mod_pos_bound; lia.
Qed.

(** X9.  In a run of [ir_setup] that succeeds the control register is the
    first register written, with the CIR mode, and the last, with the word
    just read back in which bits 0 and 1 are set and every other bit is
    kept; no other register is written after the interrupt enables. *)
Theorem ir_setup_enables_last (s : state E) :
  let r := ir_setup P E s in
  let g := gaddr (chip s) in
  result r = SUCCESS ->
  exists tmp w,
    reads_at (g + IR_CTRL_REG) (calls r) = [tmp] /\
    writes_at (g + IR_CTRL_REG) (calls r) = [IRDA_MODE_CIR; w] /\
    hd_error (accesses (calls r)) = Some (g + IR_CTRL_REG) /\
    last (calls r) (kzalloc, 0) = (writel w (g + IR_CTRL_REG), 0) /\
    forall n : nat,
      Z.testbit w (Z.of_nat n)
      = Z.testbit tmp (Z.of_nat n) || (Z.of_nat n <? 2).
Proof.
  destruct errno as (Hm & Hv & Hr & Hio). cbv zeta.
  paths_of (ir_setup P E s).
  all: open_path; intro Hup.
  all: try solve [exfalso; unfold SUCCESS in *; lia].
  do 2 eexists.
  split; [repeat (cbn -[Z.add Z.eqb Z.lor]; registers); reflexivity|].
  split; [repeat (cbn -[Z.add Z.eqb Z.lor]; registers); reflexivity|].
  split; [reflexivity|]. split; [reflexivity|].
  intro n. apply enable_bits. lia.
Qed.

End SetupStop.

(** ** Register accesses stay inside the mapping *)

Lemma in_window_off (g off : Z) :
  0 <= off -> off + 4 <= IR_RANGE_SIZE -> in_window g (g + off) = true.
Proof.
  intros H1 H2. unfold in_window. apply andb_true_intro.
  split; apply Z.leb_le; lia.
Qed.

Ltac windows :=
  repeat (cbn -[Z.add Z.eqb in_window]; recall;
          rewrite ?in_window_off by (cbv; intro; discriminate)).

Lemma accesses_irq_trace (c : sunxi_ir_chip) (intsta : Z) (ws : list Z) :
  accesses (irq_trace c intsta ws)
  = [gaddr c + IR_RXINTS_REG; gaddr c + IR_RXINTS_REG]
    ++ repeat (gaddr c + IR_RXDAT_REG) (length ws).
Proof.
  pose proof (accesses_drain c ws) as H. unfold accesses in *.
  unfold irq_trace, idle_calls, reset_calls. rewrite !flat_map_app, H.
  destruct (negb (Z.land intsta IR_RXINTS_RXPE =? 0)),
    (negb (Z.land intsta IR_RXINTS_RXOF =? 0));
    cbn [flat_map app]; rewrite ?app_nil_r; reflexivity.
Qed.

(** X17.  Whatever address the chip's register block is mapped at, every
    register access of the handler is a 32-bit access inside the
    [IR_RANGE_SIZE] bytes mapped there. *)
Theorem irq_accesses_in_window (E : environment) (irq devid : Z) (s : state E) :
  Forall (fun a => in_window (gaddr (chip s)) a = true)
         (accesses (calls (sunxi_ir_irq E irq devid s))).
Proof.
  destruct (sunxi_ir_irq_trace E irq devid s) as (intsta & ws & _ & _ & _ & Ht).
  rewrite Ht, accesses_irq_trace. apply Forall_app. split.
  - repeat constructor; apply in_window_off; cbv; intro; discriminate.
  - apply Forall_forall. intros a Ha. apply repeat_spec in Ha. subst a.
    apply in_window_off; cbv; intro; discriminate.
Qed.

(** ** More about probe and remove *)

Section ProbeRemove.

Variable P : platform.
Variable E : environment.

(** X12.  [sunxi_ir_probe] returns [SUCCESS] when no step fails.  Otherwise
    it returns the error code of the first step that failed: [-ENOMEM] for
    either allocation, the code [rc_register_device] or [request_irq] gave,
    [-EIO] for the mapping, and what [ir_setup] returned for one of its
    steps. *)
Theorem probe_result (s : state E) :
  let r := sunxi_ir_probe P E s in
  match find step_failed (calls r) with
  | Some ev => result r = error_code P ev
  | None => result r = SUCCESS
  end.
Proof.
  cbv zeta. paths_of (sunxi_ir_probe P E s).
  all: open_path; settle.
  all: try reflexivity.
  all: repeat match goal with
              | H : (?x =? 0) = true |- _ => apply Z.eqb_eq in H
              end;
    unfold SUCCESS in *; congruence.
Qed.

(** X15.  [sunxi_ir_remove] tests nothing and always returns [SUCCESS]: it
    does what [ir_stop] does and then unmaps the block, frees the interrupt
    with the chip as its cookie, unregisters and frees the rc device and
    frees the chip, in that order.  It leaves the driver-data pointer set
    and the members of the chip as they were. *)
Theorem remove_behaviour (s : state E) :
  let r := sunxi_ir_remove P E s in
  let c := chip s in
  let p := drvdata s in
  result r = SUCCESS /\
  calls r
  = calls (ir_stop E s)
    ++ [ (iounmap (gaddr c), 0);
         (free_irq (IR_IRQNO P) p, 0);
         (rc_unregister_device (rcdev c), 0);
         (rc_free_device (rcdev c), 0);
         (kfree p, 0) ] /\
  chip (final r) = c /\
  drvdata (final r) = p.
Proof.
  cbv zeta. paths_of (sunxi_ir_remove P E s).
  all: open_path; cbn [chip drvdata].
  all: split; [reflexivity|]; split; [|split; reflexivity].
  all: paths_of (ir_stop E s); open_path; reflexivity.
Qed.

Hypothesis errno : errno_positive P.

(** X13.  Whichever step of [sunxi_ir_probe] fails - an allocation, the rc
    registration, the interrupt request, the mapping, or a step of
    [ir_setup] - the probe returns a negative code, attempts no acquisition
    after the failed step, and has by then given back everything it had
    acquired, in reverse order of acquisition. *)
Theorem probe_failure_unwinds (s : state E) :
  let r := sunxi_ir_probe P E s in
  result r <> SUCCESS ->
  result r < 0 /\
  existsb step_failed (calls r) = true /\
  stops_at_failure (calls r) = true /\
  held (ledger_of (calls r)) = [] /\
  in_order (ledger_of (calls r)) = true.
Proof.
  destruct errno as (Hm & Hv & Hr & Hio). cbv zeta.
  paths_of (sunxi_ir_probe P E s).
  all: try solve [impossible].
  all: open_path; intro F; try (exfalso; apply F; reflexivity).
  all: clear F.
  all: split; [repeat match goal with
                      | H : (_ <? _) = true |- _ => apply Z.ltb_lt in H
                      end; lia|].
  all: split; [settle; reflexivity|]; split; [settle; reflexivity|].
  all: book; split; reflexivity.
Qed.

(** X14.  Among the calls that setup and teardown themselves make - those
    of [sunxi_ir_probe], [ir_setup], [ir_stop] and [sunxi_ir_remove], along
    probe followed by remove and along a probe that fails and unwinds - no
    register is read or written before [ioremap] has succeeded or after
    [iounmap], and every access is a 32-bit access inside the
    [IR_RANGE_SIZE] bytes that were mapped.  The interrupt handler, which
    can run from [request_irq] to [free_irq], is not part of these traces
    and is not covered. *)
Theorem accesses_only_while_mapped (s : state E) :
  accesses_mapped None (calls (attach_then_detach P E s)) = true.
Proof.
  destruct errno as (Hm & Hv & Hr & Hio).
  paths_of (attach_then_detach P E s).
  all: try solve [impossible].
  all: open_path; windows; reflexivity.
Qed.

End ProbeRemove.

(** ** Module load and unload *)

(** X16.  [sunxi_ir_init] returns 0 with the device and the driver both
    registered, or returns the code of the registration that failed with
    neither registered: when the device cannot be registered the driver is
    not tried, and when the driver cannot be registered the device is
    unregistered again.  [sunxi_ir_exit] after it unregisters the driver and
    then the device, leaving nothing registered. *)
Theorem init_all_or_nothing (B : bus) (b : bus_state B) :
  let up := sunxi_ir_init B b in
  let err := fst (fst up) in
  let down := sunxi_ir_exit B (snd (fst up)) in
  registered (snd up)
  = (if err =? 0 then [the_driver; the_device] else []) /\
  (err = 0 \/
   snd up = [(platform_device_register, err)] \/
   snd up = [ (platform_device_register, 0);
              (platform_driver_register, err);
              (platform_device_unregister, 0) ]) /\
  registered (snd up ++ snd down) = [].
Proof.
  cbv zeta. unfold sunxi_ir_init, sunxi_ir_exit.
  destruct (bus_respond B b platform_device_register) as [e1 b1].
  destruct (Z.eqb_spec e1 0) as [->|N1]; cbn [negb].
  - destruct (bus_respond B b1 platform_driver_register) as [e2 b2].
    destruct (Z.eqb_spec e2 0) as [->|N2]; cbn [negb].
    + cbn [fst snd].
      destruct (bus_respond B b2 platform_driver_unregister) as [u1 b3].
      destruct (bus_respond B b3 platform_device_unregister) as [u2 b4].
      repeat split. left; reflexivity.
    + destruct (bus_respond B b2 platform_device_unregister) as [u0 b3].
      cbn [fst snd].
      destruct (bus_respond B b3 platform_driver_unregister) as [u1 b4].
      destruct (bus_respond B b4 platform_device_unregister) as [u2 b5].
      apply Z.eqb_neq in N2.
      unfold registered. cbn [fold_left bus_step app snd].
      rewrite N2. cbn. repeat split. right; right; reflexivity.
  - cbn [fst snd].
    destruct (bus_respond B b1 platform_driver_unregister) as [u1 b3].
    destruct (bus_respond B b3 platform_device_unregister) as [u2 b4].
    apply Z.eqb_neq in N1.
    unfold registered. cbn [fold_left bus_step app snd].
    rewrite N1. cbn. repeat split. right; left; reflexivity.
Qed.

(** ** More about the probe's paths *)

Section ProbePaths.

Variable P : platform.
Variable E : environment.
Hypothesis errno : errno_positive P.

(** X18.  A probe that succeeds makes exactly these calls, in this order:
    it allocates the chip and the rc device, registers the rc device,
    requests interrupt [IR_IRQNO] with the chip as cookie - before the
    registers are mapped - maps [IR_RANGE_SIZE] bytes at [IR_BASE], resets
    the raw event queue, and runs [ir_setup] on the block just mapped.  The
    driver-data pointer is then the chip, and the chip holds the rc device,
    the mapping and the three handles. *)
Theorem probe_success_trace (s : state E) :
  let r := sunxi_ir_probe P E s in
  result r = SUCCESS ->
  exists p rc e1 e2 g h a i tmp,
    calls r
    = [ (kzalloc, p);
        (rc_allocate_device, rc);
        (rc_register_device rc, e1);
        (request_irq (IR_IRQNO P) p, e2);
        (ioremap (IR_BASE P) IR_RANGE_SIZE, g);
        (ir_raw_event_reset rc, 0) ]
      ++ setup_trace (mk_chip rc g 0 0 0) h a i tmp /\
    chip (final r) = mk_chip rc g h a i /\
    drvdata (final r) = p /\
    p <> 0 /\ rc <> 0 /\ 0 <= e1 /\ 0 <= e2 /\ g <> 0.
Proof.
  destruct errno as (Hm & Hv & Hr & Hio). cbv zeta.
  paths_of (sunxi_ir_probe P E s).
  all: try solve [impossible].
  all: open_path; cbn [chip drvdata]; intro Hup.
  all: try solve [exfalso; unfold SUCCESS in *;
                  repeat match goal with
                         | H : (_ <? _) = true |- _ => apply Z.ltb_lt in H
                         end; lia].
  repeat match goal with
         | H : (?x =? 0) = true |- _ => apply Z.eqb_eq in H; subst x
         end.
  do 9 eexists. split; [reflexivity|]. split; [reflexivity|].
  split; [reflexivity|].
  repeat match goal with
         | H : (_ =? 0) = false |- _ => apply Z.eqb_neq in H
         | H : (_ <? 0) = false |- _ => apply Z.ltb_ge in H
         end.
  repeat split; assumption.
Qed.

(** X19.  When a step before [ir_setup] fails - an allocation, the rc
    registration, the interrupt request or the mapping - the probe releases
    exactly what it had acquired and nothing else: no call releases
    something that is not held, and no register is touched. *)
Theorem probe_early_failure_exact (s : state E) :
  let r := sunxi_ir_probe P E s in
  result r <> SUCCESS ->
  existsb setup_step_failed (calls r) = false ->
  ledger_of (calls r) = mk_ledger [] true [] /\
  accesses (calls r) = [].
Proof.
  destruct errno as (Hm & Hv & Hr & Hio). cbv zeta.
  paths_of (sunxi_ir_probe P E s).
  all: try solve [impossible].
  all: open_path; intro F; try (exfalso; apply F; reflexivity).
  all: clear F; settle; intro F; try discriminate F; clear F.
  all: split; [book; reflexivity | reflexivity].
Qed.

(** X20.  When a step of [ir_setup] fails, the unwinding goes through
    [ir_stop], which can release what was never acquired: the only such
    releases are [clk_disable] on a clock that was looked up but not
    enabled, and [gpio_release] on the null handle of a pin request that
    failed.  The mapping, the interrupt, the rc device and the chip are
    each released exactly once. *)
Theorem probe_setup_failure_over_release (s : state E) :
  let r := sunxi_ir_probe P E s in
  existsb setup_step_failed (calls r) = true ->
  Forall (fun x => match x with
                   | clock_enable clk => clk <> 0
                   | ir_pin h => h = 0
                   | _ => False
                   end)
         (not_held (ledger_of (calls r))).
Proof.
  destruct errno as (Hm & Hv & Hr & Hio). cbv zeta.
  paths_of (sunxi_ir_probe P E s).
  all: try solve [impossible].
  all: open_path; settle; intro F; try discriminate F; clear F.
  all: book; cbn [not_held].
  all: repeat match goal with
              | H : (_ =? 0) = false |- _ => apply Z.eqb_neq in H
              | H : (_ =? 0) = true |- _ => apply Z.eqb_eq in H
              end.
  all: repeat constructor; assumption.
Qed.

End ProbePaths.

(** ** The further theorems at work on the sun4i platform *)

(** X7 at work: [ir_setup] on a mapped chip, everything granted. *)
Lemma ir_setup_success_trace_witness :
  let r := ir_setup sun4i scripted_env mapped in
  let c := chip mapped in
  errno_positive sun4i /\
  result r = SUCCESS /\
  exists h a i tmp,
    calls r = setup_trace c h a i tmp /\
    chip (final r) = mk_chip (rcdev c) (gaddr c) h a i /\
    drvdata (final r) = drvdata mapped /\
    h <> 0 /\ a <> 0 /\ i <> 0 /\ 0 <= tmp < 2 ^ 32.
Proof.
  cbv zeta. split; [exact sun4i_errno_positive|]. split; [reflexivity|].
  apply (ir_setup_success_trace sun4i scripted_env sun4i_errno_positive mapped).
  reflexivity.
Defined.

(** X9 at work: the same run. *)
Lemma ir_setup_enables_last_witness :
  let r := ir_setup sun4i scripted_env mapped in
  let g := gaddr (chip mapped) in
  errno_positive sun4i /\
  result r = SUCCESS /\
  exists tmp w,
    reads_at (g + IR_CTRL_REG) (calls r) = [tmp] /\
    writes_at (g + IR_CTRL_REG) (calls r) = [IRDA_MODE_CIR; w] /\
    hd_error (accesses (calls r)) = Some (g + IR_CTRL_REG) /\
    last (calls r) (kzalloc, 0) = (writel w (g + IR_CTRL_REG), 0) /\
    forall n : nat,
      Z.testbit w (Z.of_nat n)
      = Z.testbit tmp (Z.of_nat n) || (Z.of_nat n <? 2).
Proof.
  cbv zeta. split; [exact sun4i_errno_positive|]. split; [reflexivity|].
  apply (ir_setup_enables_last sun4i scripted_env sun4i_errno_positive mapped).
  reflexivity.
Defined.

(** X13 at work: the interrupt line is busy. *)
Lemma probe_failure_unwinds_witness :
  let r := sunxi_ir_probe sun4i scripted_env (cold irq_busy) in
  errno_positive sun4i /\
  result r <> SUCCESS /\
  (result r < 0 /\
   existsb step_failed (calls r) = true /\
   stops_at_failure (calls r) = true /\
   held (ledger_of (calls r)) = [] /\
   in_order (ledger_of (calls r)) = true).
Proof.
  cbv zeta. split; [exact sun4i_errno_positive|].
  split; [discriminate|].
  apply (probe_failure_unwinds sun4i scripted_env sun4i_errno_positive
           (cold irq_busy)).
  discriminate.
Defined.

(** X14 at work: a probe that succeeds, followed by the remove. *)
Lemma accesses_only_while_mapped_witness :
  errno_positive sun4i /\
  accesses_mapped None
    (calls (attach_then_detach sun4i scripted_env (cold healthy))) = true.
Proof.
  split; [exact sun4i_errno_positive|].
  exact (accesses_only_while_mapped sun4i scripted_env sun4i_errno_positive
           (cold healthy)).
Defined.

(** X18 at work: everything granted. *)
Lemma probe_success_trace_witness :
  let r := sunxi_ir_probe sun4i scripted_env (cold healthy) in
  errno_positive sun4i /\
  result r = SUCCESS /\
  exists p rc e1 e2 g h a i tmp,
    calls r
    = [ (kzalloc, p);
        (rc_allocate_device, rc);
        (rc_register_device rc, e1);
        (request_irq (IR_IRQNO sun4i) p, e2);
        (ioremap (IR_BASE sun4i) IR_RANGE_SIZE, g);
        (ir_raw_event_reset rc, 0) ]
      ++ setup_trace (mk_chip rc g 0 0 0) h a i tmp /\
    chip (final r) = mk_chip rc g h a i /\
    drvdata (final r) = p /\
    p <> 0 /\ rc <> 0 /\ 0 <= e1 /\ 0 <= e2 /\ g <> 0.
Proof.
  cbv zeta. split; [exact sun4i_errno_positive|]. split; [reflexivity|].
  apply (probe_success_trace sun4i scripted_env sun4i_errno_positive
           (cold healthy)).
  reflexivity.
Defined.

(** X19 at work: the interrupt line is busy. *)
Lemma probe_early_failure_exact_witness :
  let r := sunxi_ir_probe sun4i scripted_env (cold irq_busy) in
  errno_positive sun4i /\
  result r <> SUCCESS /\
  existsb setup_step_failed (calls r) = false /\
  (ledger_of (calls r) = mk_ledger [] true [] /\
   accesses (calls r) = []).
Proof.
  cbv zeta. split; [exact sun4i_errno_positive|].
  split; [discriminate|]. split; [reflexivity|].
  apply (probe_early_failure_exact sun4i scripted_env sun4i_errno_positive
           (cold irq_busy)); [discriminate | reflexivity].
Defined.

(** X20 at work: the module clock refuses the rate. *)
Lemma probe_setup_failure_over_release_witness :
  let r := sunxi_ir_probe sun4i scripted_env (cold rate_rejected) in
  errno_positive sun4i /\
  existsb setup_step_failed (calls r) = true /\
  Forall (fun x => match x with
                   | clock_enable clk => clk <> 0
                   | ir_pin h => h = 0
                   | _ => False
                   end)
         (not_held (ledger_of (calls r))).
Proof.
  cbv zeta. split; [exact sun4i_errno_positive|]. split; [reflexivity|].
  apply (probe_setup_failure_over_release sun4i scripted_env
           sun4i_errno_positive (cold rate_rejected)).
  reflexivity.
Defined.
